(** * Connect Four engine: board model, win detection, heuristic and minimax

    A shallow embedding of [ai_studio_code.py].  Boards are Python lists of
    lists, so reads and writes out of range raise [IndexError]; the helpers
    live in a small exception monad.  [minimax] additionally threads the
    state of the random number generator used for the fallback column. *)

From stdpp Require Import list sorting.
From Stdlib Require Import ZArith Lia.
From Stdlib Require String Ascii.

(** ** Game configuration and constants *)

Definition ROW_COUNT : nat := 6.
Definition COLUMN_COUNT : nat := 7.
Definition WINDOW_LENGTH : nat := 4.
Definition SEARCH_DEPTH : Z := 4.

(** The three one-character markers ['-'], ['X'] and ['O']. *)
Inductive cell : Type := EMPTY | PLAYER_PIECE | AI_PIECE.

Global Instance cell_eq_dec : EqDecision cell.
Proof. solve_decision. Defined.

Definition cell_eqb (x y : cell) : bool := bool_decide (x = y).

Abbreviation board := (list (list cell)).

(** ** Python exceptions and the exception monad *)

Inductive exn : Type :=
| IndexError   (* list index out of range *)
| TypeError    (* indexing a list with [None] *)
| Diverge.     (* the recursion budget of the model ran out *)

Inductive res (A : Type) : Type :=
| Ok (a : A)
| Err (e : exn).
Arguments Ok {A} a.
Arguments Err {A} e.

Definition rbind {A B} (m : res A) (k : A -> res B) : res B :=
  match m with
  | Ok a => k a
  | Err e => Err e
  end.

Notation "'let*' x ':=' m 'in' k" := (rbind m (fun x => k))
  (at level 10, x name, m at level 100, k at level 200, only parsing).

(** [l[i]] for a non-negative index. *)
Definition idx {A} (l : list A) (i : nat) : res A :=
  match l !! i with
  | Some x => Ok x
  | None => Err IndexError
  end.

(** [range(n)] and [range(a, b)]. *)
Definition range (n : nat) : list nat := seq 0 n.
Definition range2 (a b : nat) : list nat := seq a (b - a).

(** [l[i:j]]: slicing never raises, it truncates. *)
Definition slice {A} (l : list A) (i j : nat) : list A := take (j - i) (drop i l).

(** [l.count(x)]. *)
Fixpoint count (l : list cell) (x : cell) : nat :=
  match l with
  | [] => 0
  | y :: l' => (if cell_eqb y x then 1 else 0) + count l' x
  end.

(** A list comprehension whose element expression may raise. *)
Fixpoint map_m {A B} (f : A -> res B) (l : list A) : res (list B) :=
  match l with
  | [] => Ok []
  | x :: l' => let* y := f x in let* ys := map_m f l' in Ok (y :: ys)
  end.

(** [for x in l: if f(x): return True] followed by falling through. *)
Fixpoint any_m {A} (f : A -> res bool) (l : list A) : res bool :=
  match l with
  | [] => Ok false
  | x :: l' => let* t := f x in if t then Ok true else any_m f l'
  end.

(** A [for] loop that updates one local variable. *)
Fixpoint for_acc {A S} (l : list A) (s : S) (body : A -> S -> res S) : res S :=
  match l with
  | [] => Ok s
  | x :: l' => let* s' := body x s in for_acc l' s' body
  end.

(** Short-circuit [and] / [or] over expressions that may raise. *)
Definition and_m (a b : res bool) : res bool :=
  let* x := a in if x then b else Ok false.
Definition or_m (a b : res bool) : res bool :=
  let* x := a in if x then Ok true else b.

(** ** Board management *)

Definition create_board : board :=
  replicate ROW_COUNT (replicate COLUMN_COUNT EMPTY).

(** [board[r][c]] *)
Definition cell_at (b : board) (r c : nat) : res cell :=
  let* row := idx b r in idx row c.

(** [board[row][col] = piece]; the updated board is returned. *)
Definition drop_piece (b : board) (row col : nat) (piece : cell) : res board :=
  let* rw := idx b row in
  let* _ := idx rw col in
  Ok (<[row := <[col := piece]> rw]> b).

Definition is_valid_location (b : board) (col : nat) : res bool :=
  let* x := cell_at b (ROW_COUNT - 1) col in Ok (cell_eqb x EMPTY).

(** The loop of [get_next_open_row]; falling off the end returns [None]. *)
Fixpoint first_open (b : board) (col : nat) (rows : list nat) : res (option nat) :=
  match rows with
  | [] => Ok None
  | r :: rows' =>
      let* x := cell_at b r col in
      if cell_eqb x EMPTY then Ok (Some r) else first_open b col rows'
  end.

Definition get_next_open_row (b : board) (col : nat) : res (option nat) :=
  first_open b col (range ROW_COUNT).

Definition get_valid_locations (b : board) : res (list nat) :=
  for_acc (range COLUMN_COUNT) []
    (fun col valid_locations =>
       let* v := is_valid_location b col in
       Ok (if v then valid_locations ++ [col] else valid_locations)).

(** [board[r][c] == piece] *)
Definition is_piece (b : board) (piece : cell) (rc : nat * nat) : res bool :=
  let* x := cell_at b rc.1 rc.2 in Ok (cell_eqb x piece).

(** The four-fold conjunction tested in each scan of [winning_move]. *)
Definition four (b : board) (piece : cell) (p0 p1 p2 p3 : nat * nat) : res bool :=
  and_m (is_piece b piece p0)
    (and_m (is_piece b piece p1)
       (and_m (is_piece b piece p2) (is_piece b piece p3))).

Definition winning_move (b : board) (piece : cell) : res bool :=
  (* 1. horizontal *)
  let* h := any_m (fun c => any_m (fun r =>
      four b piece (r, c) (r, c + 1) (r, c + 2) (r, c + 3))
      (range ROW_COUNT)) (range (COLUMN_COUNT - 3)) in
  if h then Ok true else
  (* 2. vertical *)
  let* v := any_m (fun c => any_m (fun r =>
      four b piece (r, c) (r + 1, c) (r + 2, c) (r + 3, c))
      (range (ROW_COUNT - 3))) (range COLUMN_COUNT) in
  if v then Ok true else
  (* 3. positively sloped diagonals *)
  let* p := any_m (fun c => any_m (fun r =>
      four b piece (r, c) (r + 1, c + 1) (r + 2, c + 2) (r + 3, c + 3))
      (range (ROW_COUNT - 3))) (range (COLUMN_COUNT - 3)) in
  if p then Ok true else
  (* 4. negatively sloped diagonals *)
  let* n := any_m (fun c => any_m (fun r =>
      four b piece (r, c) (r - 1, c + 1) (r - 2, c + 2) (r - 3, c + 3))
      (range2 3 ROW_COUNT)) (range (COLUMN_COUNT - 3)) in
  if n then Ok true else Ok false.

Definition is_terminal_node (b : board) : res bool :=
  or_m (winning_move b PLAYER_PIECE)
    (or_m (winning_move b AI_PIECE)
       (let* vl := get_valid_locations b in Ok (length vl =? 0))).

(** ** Scoring heuristics *)

Definition evaluate_window (window : list cell) (piece : cell) : Z :=
  let score := 0%Z in
  let opp_piece := PLAYER_PIECE in
  let opp_piece := if cell_eqb piece PLAYER_PIECE then AI_PIECE else opp_piece in
  let score :=
    if count window piece =? 4 then (score + 100)%Z
    else if (count window piece =? 3) && (count window EMPTY =? 1) then (score + 5)%Z
    else if (count window piece =? 2) && (count window EMPTY =? 2) then (score + 2)%Z
    else score in
  let score :=
    if (count window opp_piece =? 3) && (count window EMPTY =? 1) then (score - 4)%Z
    else score in
  score.

Definition score_position (b : board) (piece : cell) : res Z :=
  let score := 0%Z in
  (* centre column *)
  let* center_array := map_m (fun i => idx i (COLUMN_COUNT / 2)) b in
  let center_count := count center_array piece in
  let score := (score + Z.of_nat center_count * 3)%Z in
  (* horizontal *)
  let* score := for_acc (range ROW_COUNT) score (fun r score =>
    let* row_array := idx b r in
    for_acc (range (COLUMN_COUNT - 3)) score (fun c score =>
      let window := slice row_array c (c + WINDOW_LENGTH) in
      Ok (score + evaluate_window window piece)%Z)) in
  (* vertical *)
  let* score := for_acc (range COLUMN_COUNT) score (fun c score =>
    let* col_array := map_m (fun row => idx row c) b in
    for_acc (range (ROW_COUNT - 3)) score (fun r score =>
      let window := slice col_array r (r + WINDOW_LENGTH) in
      Ok (score + evaluate_window window piece)%Z)) in
  (* positive diagonal *)
  let* score := for_acc (range (ROW_COUNT - 3)) score (fun r score =>
    for_acc (range (COLUMN_COUNT - 3)) score (fun c score =>
      let* window := map_m (fun i => cell_at b (r + i) (c + i)) (range WINDOW_LENGTH) in
      Ok (score + evaluate_window window piece)%Z)) in
  (* negative diagonal *)
  let* score := for_acc (range (ROW_COUNT - 3)) score (fun r score =>
    for_acc (range (COLUMN_COUNT - 3)) score (fun c score =>
      let* window := map_m (fun i => cell_at b (r + 3 - i) (c + i)) (range WINDOW_LENGTH) in
      Ok (score + evaluate_window window piece)%Z)) in
  Ok score.

(** ** Minimax *)

(** Scores during the search: Python integers together with the floats
    [-math.inf] and [math.inf] that initialise the incumbent. *)
Inductive ext : Type := NegInf | Fin (z : Z) | PosInf.

(** [x < y] on such scores. *)
Definition ext_ltb (x y : ext) : bool :=
  match x, y with
  | NegInf, NegInf => false
  | NegInf, _ => true
  | Fin a, Fin b => (a <? b)%Z
  | Fin _, PosInf => true
  | _, _ => false
  end.

(** The generator state is the stream of draws still to come; this covers
    every sequence of picks [random.choice] can make. *)
Definition rng : Type := nat -> nat.

(** Computations that may raise and that consume randomness. *)
Definition M (A : Type) : Type := rng -> res A * rng.

Definition ret_m {A} (a : A) : M A := fun g => (Ok a, g).
Definition raise_m {A} (e : exn) : M A := fun g => (Err e, g).
Definition bind_m {A B} (m : M A) (k : A -> M B) : M B :=
  fun g => match m g with
           | (Ok a, g') => k a g'
           | (Err e, g') => (Err e, g')
           end.
Definition lift {A} (m : res A) : M A := fun g => (m, g).

Notation "'let!' x ':=' m 'in' k" := (bind_m m (fun x => k))
  (at level 10, x name, m at level 100, k at level 200, only parsing).

(** [random.choice(l)]: raises [IndexError] on the empty list. *)
Definition random_choice (l : list nat) : M nat :=
  fun g => match l with
           | [] => (Err IndexError, g)
           | x :: _ => (Ok (nth (g 0 mod length l) l x), fun i => g (S i))
           end.

(** [board[row][col] = piece] where [row] is what [get_next_open_row]
    returned, possibly [None]. *)
Definition drop_piece_at (b : board) (row : option nat) (col : nat) (piece : cell)
  : res board :=
  match row with
  | Some r => drop_piece b r col piece
  | None => Err TypeError
  end.

Definition result : Type := option nat * ext.

(** The [for col in valid_locations] loop of the maximizing branch;
    [rec] is the recursive call. *)
Fixpoint max_loop (rec : board -> Z -> bool -> M result) (b : board) (depth : Z)
    (cols : list nat) (value : ext) (column : option nat) : M result :=
  match cols with
  | [] => ret_m (column, value)
  | col :: cols' =>
      let! row := lift (get_next_open_row b col) in
      let! b_copy := lift (drop_piece_at b row col AI_PIECE) in
      let! r := rec b_copy (depth - 1)%Z false in
      let new_score := r.2 in
      if ext_ltb value new_score
      then max_loop rec b depth cols' new_score (Some col)
      else max_loop rec b depth cols' value column
  end.

(** The same loop of the minimizing branch. *)
Fixpoint min_loop (rec : board -> Z -> bool -> M result) (b : board) (depth : Z)
    (cols : list nat) (value : ext) (column : option nat) : M result :=
  match cols with
  | [] => ret_m (column, value)
  | col :: cols' =>
      let! row := lift (get_next_open_row b col) in
      let! b_copy := lift (drop_piece_at b row col PLAYER_PIECE) in
      let! r := rec b_copy (depth - 1)%Z true in
      let new_score := r.2 in
      if ext_ltb new_score value
      then min_loop rec b depth cols' new_score (Some col)
      else min_loop rec b depth cols' value column
  end.

(** [minimax]; [fuel] bounds the recursion depth of the model. *)
Fixpoint minimax (fuel : nat) (b : board) (depth : Z) (maximizingPlayer : bool)
  : M result :=
  match fuel with
  | O => raise_m Diverge
  | S fuel' =>
      let! valid_locations := lift (get_valid_locations b) in
      let! is_terminal := lift (is_terminal_node b) in
      if (depth =? 0)%Z || is_terminal then
        if is_terminal then
          let! ai := lift (winning_move b AI_PIECE) in
          if ai then ret_m (None, Fin 100000000000000)
          else
            let! pl := lift (winning_move b PLAYER_PIECE) in
            if pl then ret_m (None, Fin (-10000000000000))
            else ret_m (None, Fin 0)
        else
          let! s := lift (score_position b AI_PIECE) in
          ret_m (None, Fin s)
      else if maximizingPlayer then
        let value := NegInf in
        let! column := random_choice valid_locations in
        max_loop (minimax fuel') b depth valid_locations value (Some column)
      else
        let value := PosInf in
        let! column := random_choice valid_locations in
        min_loop (minimax fuel') b depth valid_locations value (Some column)
  end.

(** ** Specification-level notions *)

(** The data model: exactly [ROW_COUNT] rows of [COLUMN_COUNT] cells. *)
Definition wf_board (b : board) : bool :=
  (length b =? ROW_COUNT) && forallb (fun row => length row =? COLUMN_COUNT) b.

(** Total read of a cell, used to state properties of well-formed boards. *)
Definition bget (b : board) (r c : nat) : cell :=
  match b !! r with
  | Some row => match row !! c with Some x => x | None => EMPTY end
  | None => EMPTY
  end.

(** Number of free cells: the measure that bounds the search. *)
Definition count_empty (b : board) : nat :=
  sum_list (map (fun row => count row EMPTY) b).

(** Gravity: in every column, a cell above an empty cell is empty, that is,
    the occupied cells form a block resting on row 0. *)
Definition gravity (b : board) : bool :=
  forallb (fun c =>
    forallb (fun r => implb (cell_eqb (bget b r c) EMPTY)
                            (cell_eqb (bget b (r + 1) c) EMPTY))
      (range (ROW_COUNT - 1)))
    (range COLUMN_COUNT).

(** Rotation by 180 degrees: row order and column order both reversed. *)
Definition rotate180 (b : board) : board := reverse (reverse <$> b).

(** The length-4 windows of the grid, as lists of (row, column). *)
Definition horizontal_windows : list (list (nat * nat)) :=
  flat_map (fun r => map (fun c => [(r, c); (r, c + 1); (r, c + 2); (r, c + 3)])
                         (range (COLUMN_COUNT - 3))) (range ROW_COUNT).
Definition vertical_windows : list (list (nat * nat)) :=
  flat_map (fun c => map (fun r => [(r, c); (r + 1, c); (r + 2, c); (r + 3, c)])
                         (range (ROW_COUNT - 3))) (range COLUMN_COUNT).
Definition rising_windows : list (list (nat * nat)) :=
  flat_map (fun r => map (fun c => [(r, c); (r + 1, c + 1); (r + 2, c + 2); (r + 3, c + 3)])
                         (range (COLUMN_COUNT - 3))) (range (ROW_COUNT - 3)).
Definition falling_windows : list (list (nat * nat)) :=
  flat_map (fun r => map (fun c => [(r + 3, c); (r + 2, c + 1); (r + 1, c + 2); (r, c + 3)])
                         (range (COLUMN_COUNT - 3))) (range (ROW_COUNT - 3)).
Definition all_windows : list (list (nat * nat)) :=
  horizontal_windows ++ vertical_windows ++ rising_windows ++ falling_windows.

(** The cells a window covers on a board. *)
Definition window_cells (b : board) (w : list (nat * nat)) : list cell :=
  map (fun rc => bget b rc.1 rc.2) w.

(** Sum of a list of integers. *)
Definition sum_Z (l : list Z) : Z := foldr Z.add 0%Z l.

(** The score of a position as the specification words it. *)
Definition score_spec (b : board) (piece : cell) : Z :=
  (sum_Z (map (fun w => evaluate_window (window_cells b w) piece) all_windows)
   + 3 * Z.of_nat (count (map (fun r => bget b r 3) (range ROW_COUNT)) piece))%Z.

(** The other player's piece. *)
Definition opposing (piece : cell) : cell :=
  match piece with
  | PLAYER_PIECE => AI_PIECE
  | _ => PLAYER_PIECE
  end.

(** The scoring table of a window as the specification words it: the
    piece's own pattern, and separately the defensive penalty. *)
Definition own_pattern (window : list cell) (piece : cell) : Z :=
  if bool_decide (count window piece = 4) then 100
  else if bool_decide (count window piece = 3 /\ count window EMPTY = 1) then 5
  else if bool_decide (count window piece = 2 /\ count window EMPTY = 2) then 2
  else 0.
Definition opp_penalty (window : list cell) (piece : cell) : Z :=
  if bool_decide (count window (opposing piece) = 3 /\ count window EMPTY = 1)
  then (-4) else 0.

(** A piece has a run of four on the board. *)
Definition has_four (b : board) (piece : cell) : Prop :=
  exists w, w ∈ all_windows /\ forall rc, rc ∈ w -> bget b rc.1 rc.2 = piece.

(** ** Sample boards *)

Section Samples.

Local Abbreviation X := PLAYER_PIECE.
Local Abbreviation O := AI_PIECE.
Local Abbreviation E := EMPTY.

(** Row 0 is listed first. *)
Definition board_player_won : board :=
  [ [X; X; X; X; O; O; O];
    [E; E; E; E; E; E; E];
    [E; E; E; E; E; E; E];
    [E; E; E; E; E; E; E];
    [E; E; E; E; E; E; E];
    [E; E; E; E; E; E; E] ].

Definition board_ai_won : board :=
  [ [O; O; O; O; X; X; X];
    [X; E; E; E; E; E; E];
    [E; E; E; E; E; E; E];
    [E; E; E; E; E; E; E];
    [E; E; E; E; E; E; E];
    [E; E; E; E; E; E; E] ].

Definition board_both_won : board :=
  [ [X; X; X; X; E; E; E];
    [O; O; O; O; E; E; E];
    [E; E; E; E; E; E; E];
    [E; E; E; E; E; E; E];
    [E; E; E; E; E; E; E];
    [E; E; E; E; E; E; E] ].

Definition board_full_draw : board :=
  [ [X; O; X; O; X; O; X];
    [X; O; X; O; X; O; X];
    [O; X; O; X; O; X; O];
    [O; X; O; X; O; X; O];
    [X; O; X; O; X; O; X];
    [X; O; X; O; X; O; X] ].

Definition board_midgame : board :=
  [ [X; O; X; O; O; E; E];
    [E; X; X; O; E; E; E];
    [E; E; O; X; E; E; E];
    [E; E; E; X; E; E; E];
    [E; E; E; O; E; E; E];
    [E; E; E; X; E; E; E] ].

End Samples.

Definition draws_zero : rng := fun _ => 0.
Definition draws_up : rng := fun i => i + 5.

(** A cell of the board holds the piece. *)
Definition full (b : board) (piece : cell) (rc : nat * nat) : bool :=
  cell_eqb (bget b rc.1 rc.2) piece.

Definition in_grid (rc : nat * nat) : bool :=
  (rc.1 <? ROW_COUNT) && (rc.2 <? COLUMN_COUNT).

(** The windows in the order in which [winning_move] scans them. *)
Definition scan_windows : list (list (nat * nat)) :=
  flat_map (fun c => map (fun r => [(r, c); (r, c + 1); (r, c + 2); (r, c + 3)])
                         (range ROW_COUNT)) (range (COLUMN_COUNT - 3))
  ++ flat_map (fun c => map (fun r => [(r, c); (r + 1, c); (r + 2, c); (r + 3, c)])
                         (range (ROW_COUNT - 3))) (range COLUMN_COUNT)
  ++ flat_map (fun c => map (fun r => [(r, c); (r + 1, c + 1); (r + 2, c + 2); (r + 3, c + 3)])
                         (range (ROW_COUNT - 3))) (range (COLUMN_COUNT - 3))
  ++ flat_map (fun c => map (fun r => [(r, c); (r - 1, c + 1); (r - 2, c + 2); (r - 3, c + 3)])
                         (range2 3 ROW_COUNT)) (range (COLUMN_COUNT - 3)).

(** Where a cell goes under the half-turn. *)
Definition rot (rc : nat * nat) : nat * nat :=
  (ROW_COUNT - 1 - rc.1, COLUMN_COUNT - 1 - rc.2).

(** Pure views of the three tests [minimax] starts with, for well-formed
    boards. *)
Definition wins (b : board) (piece : cell) : bool :=
  existsb (forallb (full b piece)) scan_windows.
Definition open_columns (b : board) : list nat :=
  filter (fun c => bget b (ROW_COUNT - 1) c = EMPTY) (range COLUMN_COUNT).
Definition terminal (b : board) : bool :=
  wins b PLAYER_PIECE || (wins b AI_PIECE || (length (open_columns b) =? 0)).

(** A search procedure answers on every well-formed board with fewer than
    [n] free cells, with a finite score, whatever the random draws. *)
Definition answers (rec : board -> Z -> bool -> M result) (n : nat) : Prop :=
  forall b d m, wf_board b = true -> count_empty b < n ->
    exists col s, forall g, exists g', rec b d m g = (Ok (col, Fin s), g').

(** The terminal scores of [minimax]. *)
Definition AI_WIN_SCORE : Z := 100000000000000.
Definition PLAYER_WIN_SCORE : Z := -10000000000000.

(** ** The game loop, one turn at a time

    [play_game] reads the human's column from the console and prints the
    board; neither is modelled.  What is modelled is what one pass through
    the body of its [while] loop does to the three variables [board],
    [game_over] and [turn]. *)

Record game : Type := Game {
  g_board : board;
  game_over : bool;
  turn : nat
}.

(** [is_valid_location(board, col)] where [col] is the column returned by
    [minimax], possibly [None]: [board[ROW_COUNT - 1]] is evaluated first,
    then indexing it with [None] raises [TypeError]. *)
Definition is_valid_location_opt (b : board) (col : option nat) : res bool :=
  let* top := idx b (ROW_COUNT - 1) in
  match col with
  | Some c => let* x := idx top c in Ok (cell_eqb x EMPTY)
  | None => Err TypeError
  end.

(** The human's turn, from [col = int(user_input)] on, for an input that
    passed [isnumeric] (so [col] is not negative). *)
Definition human_turn (col : nat) (st : game) : res game :=
  let board := g_board st in
  if COLUMN_COUNT - 1 <? col then Ok st                    (* invalid column number *)
  else
    let* v := is_valid_location board col in
    if v then
      let* row := get_next_open_row board col in
      let* board := drop_piece_at board row col PLAYER_PIECE in
      let* w := winning_move board PLAYER_PIECE in
      let game_over := if w then true else game_over st in
      let turn := turn st + 1 in
      let turn := turn mod 2 in
      Ok (Game board game_over turn)
    else Ok st.                                            (* column is full *)

(** The computer's turn. *)
Definition ai_turn (fuel : nat) (st : game) : M game :=
  let board := g_board st in
  let! r := minimax fuel board SEARCH_DEPTH true in
  let col := r.1 in
  let! v := lift (is_valid_location_opt board col) in
  if v then
    match col with
    | Some c =>
        let! row := lift (get_next_open_row board c) in
        let! board := lift (drop_piece_at board row c AI_PIECE) in
        let! w := lift (winning_move board AI_PIECE) in
        let game_over := if w then true else game_over st in
        let turn := turn st + 1 in
        let turn := turn mod 2 in
        ret_m (Game board game_over turn)
    | None => raise_m TypeError
    end
  else ret_m st.

(** ** Further specification-level notions *)

(** The score the search assigns to playing column [c] on [b]: the piece
    is dropped at the row [get_next_open_row] gives and [rec] evaluates
    the resulting board one level deeper. *)
Definition child_score (rec : board -> Z -> bool -> M result) (b : board)
    (depth : Z) (piece : cell) (m' : bool) (c : nat) (s : Z) : Prop :=
  exists row b' col,
    get_next_open_row b c = Ok (Some row) /\
    drop_piece b row c piece = Ok b' /\
    forall g, exists g', rec b' (depth - 1)%Z m' g = (Ok (col, Fin s), g').

(** Left-right mirror image of a board. *)
Definition mirror (b : board) : board := reverse <$> b.

Definition flip (rc : nat * nat) : nat * nat := (rc.1, COLUMN_COUNT - 1 - rc.2).

(** A column without a free cell. *)
Definition column_full (b : board) (c : nat) : Prop :=
  forall r, r < ROW_COUNT -> bget b r c <> EMPTY.

(** The computer can complete its bottom row in column 3. *)
Definition board_ai_three : board :=
  [AI_PIECE; AI_PIECE; AI_PIECE; EMPTY; PLAYER_PIECE; PLAYER_PIECE; PLAYER_PIECE]
  :: replicate 5 (replicate COLUMN_COUNT EMPTY).
Definition board_ai_four : board :=
  [AI_PIECE; AI_PIECE; AI_PIECE; AI_PIECE; PLAYER_PIECE; PLAYER_PIECE; PLAYER_PIECE]
  :: replicate 5 (replicate COLUMN_COUNT EMPTY).

(** ** Printing the board

    The console is modelled as the text written so far; [print] appends
    its argument and a newline. *)

Module Printing.
Import Ascii String.
Local Open Scope string_scope.

Definition newline : string := String (Ascii.ascii_of_nat 10) EmptyString.

Definition print (s : string) (out : string) : string := out ++ s ++ newline.

(** The character of a marker, and [str(x)] for a cell [x]. *)
Definition cell_char (x : cell) : Ascii.ascii :=
  match x with
  | EMPTY => "-"%char
  | PLAYER_PIECE => "X"%char
  | AI_PIECE => "O"%char
  end.
Definition str (x : cell) : string := String (cell_char x) EmptyString.

(** [sep.join(l)] *)
Fixpoint join (sep : string) (l : list string) : string :=
  match l with
  | [] => ""
  | [x] => x
  | x :: l' => x ++ sep ++ join sep l'
  end.

Definition print_board (b : board) (out : string) : string :=
  let out := print (newline ++ "  0 1 2 3 4 5 6") out in
  let out := print "----------------" out in
  let out := fold_left (fun out row => print ("| " ++ join " " (map str row) ++ " |") out)
               (reverse b) out in
  print "----------------" out.

End Printing.

(** * Properties *)

(** ** Well-formed boards *)

Lemma wf_board_length (b : board) : wf_board b = true -> length b = ROW_COUNT.
Proof.
  unfold wf_board. intros H. apply andb_true_iff in H as [H _].
  by apply Nat.eqb_eq in H.
Qed.

Lemma wf_board_row (b : board) (r : nat) (row : list cell) :
  wf_board b = true -> b !! r = Some row -> length row = COLUMN_COUNT.
Proof.
  unfold wf_board. intros H Hr. apply andb_true_iff in H as [_ H].
  rewrite forallb_forall in H.
  apply Nat.eqb_eq, H, list_elem_of_In, list_elem_of_lookup. eauto.
Qed.

Lemma wf_board_lookup (b : board) (r : nat) :
  wf_board b = true -> r < ROW_COUNT ->
  exists row, b !! r = Some row /\ length row = COLUMN_COUNT.
Proof.
  intros H Hr. destruct (lookup_lt_is_Some_2 b r) as [row Hrow].
  - by rewrite (wf_board_length b H).
  - exists row. split; [done | exact (wf_board_row b r row H Hrow)].
Qed.

Lemma cell_at_wf (b : board) (r c : nat) :
  wf_board b = true -> r < ROW_COUNT -> c < COLUMN_COUNT ->
  cell_at b r c = Ok (bget b r c).
Proof.
  intros H Hr Hc. destruct (wf_board_lookup b r H Hr) as (row & Hrow & Hlen).
  destruct (lookup_lt_is_Some_2 row c) as [x Hx]; [lia |].
  unfold cell_at, bget, idx. rewrite Hrow. simpl. by rewrite Hx.
Qed.

Lemma cell_at_Ok_bget (b : board) (r c : nat) (x : cell) :
  cell_at b r c = Ok x -> bget b r c = x.
Proof.
  unfold cell_at, bget, idx. destruct (b !! r) as [row|]; simpl; [| done].
  destruct (row !! c); congruence.
Qed.

Lemma cell_eqb_true (x y : cell) : cell_eqb x y = true <-> x = y.
Proof. unfold cell_eqb. apply bool_decide_eq_true. Qed.

Lemma cell_eqb_false (x y : cell) : cell_eqb x y = false <-> x <> y.
Proof. unfold cell_eqb. apply bool_decide_eq_false. Qed.

Lemma elem_of_range (i n : nat) : i ∈ range n <-> i < n.
Proof. unfold range. rewrite elem_of_seq. lia. Qed.

Lemma elem_of_range2 (i a b : nat) : i ∈ range2 a b <-> a <= i < b.
Proof. unfold range2. rewrite elem_of_seq. lia. Qed.

(** ** Loops whose body cannot raise *)

Lemma any_m_Ok {A} (f : A -> res bool) (g : A -> bool) (l : list A) :
  (forall x, x ∈ l -> f x = Ok (g x)) -> any_m f l = Ok (existsb g l).
Proof.
  induction l as [|x l IH]; intros H; simpl; [done |].
  rewrite (H x) by left. simpl. destruct (g x); [done |].
  apply IH. intros y Hy. apply H. by right.
Qed.

Lemma map_m_Ok {A B} (f : A -> res B) (g : A -> B) (l : list A) :
  (forall x, x ∈ l -> f x = Ok (g x)) -> map_m f l = Ok (map g l).
Proof.
  induction l as [|x l IH]; intros H; simpl; [done |].
  rewrite (H x) by left. simpl. rewrite IH; [done |].
  intros y Hy. apply H. by right.
Qed.

Lemma existsb_nested {A B C} (phi : C -> bool) (mk : A -> B -> C)
    (xs : list A) (ys : list B) :
  existsb (fun x => existsb (fun y => phi (mk x y)) ys) xs
  = existsb phi (flat_map (fun x => map (mk x) ys) xs).
Proof.
  induction xs as [|x xs IH]; simpl; [done |].
  rewrite existsb_app, IH. f_equal.
  clear IH. induction ys as [|y ys IHy]; simpl; [done | by f_equal].
Qed.

Lemma existsb_subseteq {A} (phi : A -> bool) (l1 l2 : list A) :
  l1 ⊆ l2 -> existsb phi l1 = true -> existsb phi l2 = true.
Proof.
  intros Hsub H. apply existsb_exists in H as (x & Hx & Hphi).
  apply existsb_exists. exists x. split; [| done].
  apply list_elem_of_In, Hsub, list_elem_of_In, Hx.
Qed.

(** ** Win detection on well-formed boards *)

Lemma is_piece_wf (b : board) (piece : cell) (rc : nat * nat) :
  wf_board b = true -> in_grid rc = true -> is_piece b piece rc = Ok (full b piece rc).
Proof.
  intros H Hg. unfold in_grid in Hg. apply andb_true_iff in Hg as [Hr Hc].
  apply Nat.ltb_lt in Hr, Hc.
  unfold is_piece, full. by rewrite cell_at_wf.
Qed.

Lemma four_wf (b : board) (piece : cell) (p0 p1 p2 p3 : nat * nat) :
  wf_board b = true -> forallb in_grid [p0; p1; p2; p3] = true ->
  four b piece p0 p1 p2 p3 = Ok (forallb (full b piece) [p0; p1; p2; p3]).
Proof.
  intros H Hg. simpl in Hg.
  repeat (apply andb_true_iff in Hg as [? Hg]).
  unfold four, and_m. rewrite !is_piece_wf by done. simpl.
  destruct (full b piece p0), (full b piece p1), (full b piece p2),
    (full b piece p3); reflexivity.
Qed.

(** On a well-formed board no scan of [winning_move] raises, and the
    result is whether some scanned window is full of the piece. *)
Lemma winning_move_scan (b : board) (piece : cell) :
  wf_board b = true ->
  winning_move b piece = Ok (existsb (forallb (full b piece)) scan_windows).
Proof.
  intros H. unfold winning_move, scan_windows.
  rewrite !existsb_app, <- !existsb_nested. cbn beta.
  rewrite (any_m_Ok _ (fun c => existsb (fun r =>
    forallb (full b piece) [(r, c); (r, c + 1); (r, c + 2); (r, c + 3)])
    (range ROW_COUNT))).
  2:{ intros c Hc%elem_of_range. apply any_m_Ok. intros r Hr%elem_of_range.
      apply four_wf; [done |]. unfold in_grid; simpl.
      repeat (apply andb_true_iff; split); try apply Nat.ltb_lt;
        unfold ROW_COUNT, COLUMN_COUNT in *; lia. }
  rewrite (any_m_Ok _ (fun c => existsb (fun r =>
    forallb (full b piece) [(r, c); (r + 1, c); (r + 2, c); (r + 3, c)])
    (range (ROW_COUNT - 3)))).
  2:{ intros c Hc%elem_of_range. apply any_m_Ok. intros r Hr%elem_of_range.
      apply four_wf; [done |]. unfold in_grid; simpl.
      repeat (apply andb_true_iff; split); try apply Nat.ltb_lt;
        unfold ROW_COUNT, COLUMN_COUNT in *; lia. }
  rewrite (any_m_Ok _ (fun c => existsb (fun r =>
    forallb (full b piece) [(r, c); (r + 1, c + 1); (r + 2, c + 2); (r + 3, c + 3)])
    (range (ROW_COUNT - 3)))).
  2:{ intros c Hc%elem_of_range. apply any_m_Ok. intros r Hr%elem_of_range.
      apply four_wf; [done |]. unfold in_grid; simpl.
      repeat (apply andb_true_iff; split); try apply Nat.ltb_lt;
        unfold ROW_COUNT, COLUMN_COUNT in *; lia. }
  rewrite (any_m_Ok _ (fun c => existsb (fun r =>
    forallb (full b piece) [(r, c); (r - 1, c + 1); (r - 2, c + 2); (r - 3, c + 3)])
    (range2 3 ROW_COUNT))).
  2:{ intros c Hc%elem_of_range. apply any_m_Ok. intros r Hr%elem_of_range2.
      apply four_wf; [done |]. unfold in_grid; simpl.
      repeat (apply andb_true_iff; split); try apply Nat.ltb_lt;
        unfold ROW_COUNT, COLUMN_COUNT in *; lia. }
  repeat match goal with |- context [Ok (existsb ?f ?l)] =>
    generalize (existsb f l); intros [] end;
  reflexivity.
Qed.

Lemma subseteq_check {A} `{EqDecision A} (l1 l2 : list A) :
  forallb (fun x => bool_decide (x ∈ l2)) l1 = true -> l1 ⊆ l2.
Proof.
  rewrite forallb_forall. intros H x Hx.
  apply list_elem_of_In, H in Hx. by apply bool_decide_eq_true in Hx.
Qed.

Lemma scan_windows_all : scan_windows ⊆ all_windows.
Proof. apply subseteq_check. vm_compute. reflexivity. Qed.

Lemma all_windows_scan : all_windows ⊆ scan_windows.
Proof. apply subseteq_check. vm_compute. reflexivity. Qed.

Lemma all_windows_in_grid (w : list (nat * nat)) (rc : nat * nat) :
  w ∈ all_windows -> rc ∈ w -> in_grid rc = true.
Proof.
  assert (H : forallb (forallb in_grid) all_windows = true)
    by (vm_compute; reflexivity).
  rewrite forallb_forall in H. intros Hw Hrc.
  apply list_elem_of_In, H in Hw. rewrite forallb_forall in Hw.
  by apply Hw, list_elem_of_In.
Qed.

Lemma forallb_full (b : board) (piece : cell) (w : list (nat * nat)) :
  forallb (full b piece) w = true <-> forall rc, rc ∈ w -> bget b rc.1 rc.2 = piece.
Proof.
  rewrite forallb_forall. unfold full. split; intros H rc Hrc.
  - by apply cell_eqb_true, H, list_elem_of_In.
  - by apply cell_eqb_true, H, list_elem_of_In.
Qed.

(** [winning_move] answers [True] exactly when some window of the grid is
    full of the piece. *)
Lemma winning_move_has_four (b : board) (piece : cell) :
  wf_board b = true ->
  winning_move b piece = Ok true <-> has_four b piece.
Proof.
  intros H. rewrite (winning_move_scan b piece H). unfold has_four. split.
  - intros Hex.
    assert (Hex' : existsb (forallb (full b piece)) scan_windows = true)
      by congruence.
    apply existsb_exists in Hex' as (w & Hw & Hfull).
    exists w. split; [by apply scan_windows_all, list_elem_of_In |].
    by apply forallb_full.
  - intros (w & Hw & Hfull). f_equal. apply existsb_exists. exists w. split.
    + by apply list_elem_of_In, all_windows_scan.
    + by apply forallb_full.
Qed.

Lemma winning_move_total (b : board) (piece : cell) :
  wf_board b = true -> exists t, winning_move b piece = Ok t.
Proof. intros H. rewrite (winning_move_scan b piece H). eauto. Qed.

(** ** The half-turn *)

Lemma wf_board_Forall (b : board) :
  wf_board b = true <->
  length b = ROW_COUNT /\ Forall (fun row => length row = COLUMN_COUNT) b.
Proof.
  unfold wf_board. rewrite andb_true_iff, Nat.eqb_eq, forallb_forall, Forall_forall.
  split; intros [H1 H2]; (split; [done |]); intros row Hrow.
  - by apply Nat.eqb_eq, H2, list_elem_of_In.
  - by apply Nat.eqb_eq, H2, list_elem_of_In.
Qed.

Lemma rotate180_wf (b : board) : wf_board b = true -> wf_board (rotate180 b) = true.
Proof.
  rewrite !wf_board_Forall. unfold rotate180. intros [Hlen Hrows]. split.
  - by rewrite length_reverse, length_fmap.
  - apply Forall_reverse, Forall_fmap. eapply Forall_impl; [done |].
    intros row Hrow. simpl. by rewrite length_reverse.
Qed.

Lemma rotate180_involutive (b : board) : rotate180 (rotate180 b) = b.
Proof.
  unfold rotate180. rewrite fmap_reverse, reverse_involutive.
  rewrite <- list_fmap_compose. rewrite <- (list_fmap_id b) at 2.
  apply list_fmap_ext. intros i row _. simpl. apply reverse_involutive.
Qed.

Lemma bget_rotate180 (b : board) (rc : nat * nat) :
  wf_board b = true -> in_grid rc = true ->
  bget (rotate180 b) rc.1 rc.2 = bget b (rot rc).1 (rot rc).2.
Proof.
  intros H Hg. destruct rc as [r c]. unfold in_grid in Hg. simpl in *.
  apply andb_true_iff in Hg as [Hr Hc]. apply Nat.ltb_lt in Hr, Hc.
  pose proof (wf_board_length b H) as Hlen.
  unfold bget, rotate180, rot. simpl.
  rewrite reverse_lookup by (rewrite length_fmap; lia).
  rewrite length_fmap, list_lookup_fmap, Hlen.
  replace (ROW_COUNT - S r) with (ROW_COUNT - 1 - r) by lia.
  destruct (wf_board_lookup b (ROW_COUNT - 1 - r) H) as (row & Hrow & Hrl);
    [unfold ROW_COUNT; lia |].
  rewrite Hrow. simpl.
  rewrite reverse_lookup by lia. rewrite Hrl.
  replace (COLUMN_COUNT - S c) with (COLUMN_COUNT - 1 - c) by lia.
  change (5 - r) with (ROW_COUNT - 1 - r). by rewrite Hrow.
Qed.

Lemma rot_in_grid (rc : nat * nat) : in_grid rc = true -> in_grid (rot rc) = true.
Proof.
  unfold in_grid, rot. simpl. rewrite !andb_true_iff, !Nat.ltb_lt.
  unfold ROW_COUNT, COLUMN_COUNT. lia.
Qed.

Lemma rot_involutive (rc : nat * nat) : in_grid rc = true -> rot (rot rc) = rc.
Proof.
  destruct rc as [r c]. unfold in_grid, rot. simpl.
  rewrite !andb_true_iff, !Nat.ltb_lt. unfold ROW_COUNT, COLUMN_COUNT.
  intros [Hr Hc]. f_equal; lia.
Qed.

Lemma rot_window_closed (w : list (nat * nat)) :
  w ∈ all_windows -> reverse (rot <$> w) ∈ all_windows.
Proof.
  assert (H : forallb (fun w => bool_decide (reverse (rot <$> w) ∈ all_windows))
                all_windows = true) by (vm_compute; reflexivity).
  rewrite forallb_forall in H. intros Hw.
  by apply list_elem_of_In, H, bool_decide_eq_true in Hw.
Qed.

Lemma has_four_rotate180 (b : board) (piece : cell) :
  wf_board b = true -> has_four b piece -> has_four (rotate180 b) piece.
Proof.
  intros H (w & Hw & Hfull). exists (reverse (rot <$> w)). split.
  - by apply rot_window_closed.
  - intros rc' Hrc'. rewrite elem_of_reverse, list_elem_of_fmap in Hrc'.
    destruct Hrc' as (rc & -> & Hrc).
    pose proof (all_windows_in_grid w rc Hw Hrc) as Hg.
    rewrite bget_rotate180 by auto using rot_in_grid.
    rewrite rot_involutive by done. by apply Hfull.
Qed.

(** C9: the win detector gives the same answer on a board and on the board
    turned by 180 degrees (rows and columns both reversed). *)
Theorem winning_move_rotate180 (b : board) (piece : cell) :
  wf_board b = true ->
  winning_move b piece = winning_move (rotate180 b) piece.
Proof.
  intros H. pose proof (rotate180_wf b H) as H'.
  destruct (winning_move_total b piece H) as [t Ht].
  destruct (winning_move_total (rotate180 b) piece H') as [t' Ht'].
  rewrite Ht, Ht'. f_equal.
  destruct t, t'; try reflexivity.
  - apply winning_move_has_four, has_four_rotate180 in Ht; [| done..].
    apply winning_move_has_four in Ht; [| done]. congruence.
  - apply winning_move_has_four, has_four_rotate180 in Ht'; [| done..].
    rewrite rotate180_involutive in Ht'.
    apply winning_move_has_four in Ht'; [| done]. congruence.
Qed.

Lemma winning_move_rotate180_witness :
  wf_board board_player_won = true /\
  winning_move board_player_won PLAYER_PIECE
  = winning_move (rotate180 board_player_won) PLAYER_PIECE.
Proof. split; [reflexivity | apply winning_move_rotate180; reflexivity]. Defined.

(** ** Valid locations *)

Lemma is_valid_location_wf (b : board) (col : nat) :
  wf_board b = true -> col < COLUMN_COUNT ->
  is_valid_location b col = Ok (cell_eqb (bget b (ROW_COUNT - 1) col) EMPTY).
Proof.
  intros H Hc. unfold is_valid_location.
  by rewrite cell_at_wf by (done || (unfold ROW_COUNT; lia)).
Qed.

Lemma for_acc_collect (f : nat -> res bool) (P : nat -> Prop)
    `{!forall c, Decision (P c)} (l acc : list nat) :
  (forall c, c ∈ l -> f c = Ok (bool_decide (P c))) ->
  for_acc l acc (fun col valid_locations =>
    let* v := f col in
    Ok (if v then valid_locations ++ [col] else valid_locations))
  = Ok (acc ++ filter P l).
Proof.
  revert acc. induction l as [|c l IH]; intros acc Hf; simpl.
  - by rewrite app_nil_r.
  - rewrite (Hf c) by left. simpl. rewrite IH by (intros; apply Hf; by right).
    rewrite filter_cons. destruct (decide (P c)) as [Hp|Hp].
    + rewrite bool_decide_eq_true_2 by done. by rewrite <- app_assoc.
    + by rewrite bool_decide_eq_false_2 by done.
Qed.

Lemma get_valid_locations_wf (b : board) :
  wf_board b = true ->
  get_valid_locations b
  = Ok (filter (fun c => bget b (ROW_COUNT - 1) c = EMPTY) (range COLUMN_COUNT)).
Proof.
  intros H. unfold get_valid_locations.
  rewrite (for_acc_collect _ (fun c => bget b (ROW_COUNT - 1) c = EMPTY)); [done |].
  intros c Hc%elem_of_range. by apply is_valid_location_wf.
Qed.

Lemma StronglySorted_seq (a n : nat) : StronglySorted lt (seq a n).
Proof.
  revert a. induction n as [|n IH]; intros a; simpl; constructor; [apply IH |].
  apply Forall_forall. intros x Hx%elem_of_seq. lia.
Qed.

Lemma StronglySorted_filter (P : nat -> Prop) `{!forall c, Decision (P c)}
    (l : list nat) :
  StronglySorted lt l -> StronglySorted lt (filter P l).
Proof.
  induction 1 as [|a l Hl IH Ha]; [constructor |].
  rewrite filter_cons. destruct (decide (P a)); [| done].
  constructor; [done |]. apply Forall_forall. intros x Hx%list_elem_of_filter.
  rewrite Forall_forall in Ha. apply Ha, Hx.
Qed.

(** C8: the valid locations are exactly the columns of the grid whose top
    cell (row 5) is empty, in strictly ascending order. *)
Theorem get_valid_locations_exact (b : board) :
  wf_board b = true ->
  exists vl, get_valid_locations b = Ok vl /\
    (forall c, c ∈ vl <-> c < COLUMN_COUNT /\ cell_at b (ROW_COUNT - 1) c = Ok EMPTY) /\
    StronglySorted lt vl.
Proof.
  intros H. eexists. split; [by apply get_valid_locations_wf |]. split.
  - intros c. rewrite list_elem_of_filter, elem_of_range. split.
    + intros [He Hc]. split; [done |].
      rewrite cell_at_wf by (done || (unfold ROW_COUNT; lia)). by f_equal.
    + intros [Hc He]. split; [| done]. by apply cell_at_Ok_bget.
  - apply StronglySorted_filter, StronglySorted_seq.
Qed.

Lemma get_valid_locations_exact_witness :
  wf_board board_midgame = true /\
  exists vl, get_valid_locations board_midgame = Ok vl /\
    (forall c, c ∈ vl <-> c < COLUMN_COUNT
       /\ cell_at board_midgame (ROW_COUNT - 1) c = Ok EMPTY) /\
    StronglySorted lt vl.
Proof. split; [reflexivity | apply get_valid_locations_exact; reflexivity]. Defined.

(** ** Dropping a piece *)

Lemma first_open_seq (b : board) (col : nat) :
  wf_board b = true -> col < COLUMN_COUNT ->
  forall n k, k + n <= ROW_COUNT ->
  match first_open b col (seq k n) with
  | Ok (Some r) =>
      k <= r < k + n /\ bget b r col = EMPTY /\
      forall r', k <= r' < r -> bget b r' col <> EMPTY
  | Ok None => forall r', k <= r' < k + n -> bget b r' col <> EMPTY
  | Err _ => False
  end.
Proof.
  intros H Hc. induction n as [|n IH]; intros k Hk; simpl.
  - intros r' Hr'. lia.
  - rewrite cell_at_wf by (done || lia). simpl.
    destruct (cell_eqb (bget b k col) EMPTY) eqn:He.
    + apply cell_eqb_true in He. repeat split; [lia.. | done | intros; lia].
    + apply cell_eqb_false in He. specialize (IH (S k) ltac:(lia)).
      destruct (first_open b col (seq (S k) n)) as [[r|]|e]; [| | done].
      * destruct IH as (Hr & Hempty & Hmin). repeat split; [lia.. | done |].
        intros r' Hr'. destruct (decide (r' = k)) as [->|]; [done |].
        apply Hmin. lia.
      * intros r' Hr'. destruct (decide (r' = k)) as [->|]; [done |].
        apply IH. lia.
Qed.

Lemma bget_top_empty_open (b : board) (col : nat) :
  wf_board b = true -> col < COLUMN_COUNT ->
  bget b (ROW_COUNT - 1) col = EMPTY ->
  exists row, get_next_open_row b col = Ok (Some row) /\ row < ROW_COUNT /\
    bget b row col = EMPTY /\ forall r, r < row -> bget b r col <> EMPTY.
Proof.
  intros H Hc Htop. unfold get_next_open_row, range.
  pose proof (first_open_seq b col H Hc ROW_COUNT 0 ltac:(lia)) as Hf.
  destruct (first_open b col (seq 0 ROW_COUNT)) as [[row|]|e]; [| | done].
  - destruct Hf as (Hr & Hempty & Hmin). exists row.
    repeat split; [lia | done |]. intros r Hlt. apply Hmin. lia.
  - exfalso. apply (Hf (ROW_COUNT - 1)); [unfold ROW_COUNT; lia | done].
Qed.

Lemma drop_piece_wf (b : board) (row col : nat) (piece : cell) :
  wf_board b = true -> row < ROW_COUNT -> col < COLUMN_COUNT ->
  exists b', drop_piece b row col piece = Ok b' /\ wf_board b' = true /\
    forall r c, bget b' r c
                = if bool_decide (r = row /\ c = col) then piece else bget b r c.
Proof.
  intros H Hr Hc. destruct (wf_board_lookup b row H Hr) as (rw & Hrw & Hlen).
  destruct (lookup_lt_is_Some_2 rw col) as [x Hx]; [lia |].
  exists (<[row := <[col := piece]> rw]> b). split; [| split].
  - unfold drop_piece, idx. rewrite Hrw. simpl. by rewrite Hx.
  - apply wf_board_Forall in H as [Hl Hrows]. apply wf_board_Forall. split.
    + by rewrite length_insert.
    + apply Forall_insert; [done |]. by rewrite length_insert.
  - intros r c. unfold bget. destruct (decide (r = row)) as [->|Hne].
    + rewrite list_lookup_insert_eq by (rewrite (wf_board_length b H); done).
      rewrite Hrw. destruct (decide (c = col)) as [->|Hne].
      * rewrite list_lookup_insert_eq by lia.
        by rewrite bool_decide_eq_true_2.
      * rewrite list_lookup_insert_ne by done.
        rewrite bool_decide_eq_false_2; [done | tauto].
    + rewrite list_lookup_insert_ne by done.
      rewrite bool_decide_eq_false_2; [done | tauto].
Qed.

Lemma gravity_spec (b : board) :
  gravity b = true <->
  forall c r, c < COLUMN_COUNT -> r < ROW_COUNT - 1 ->
    bget b r c = EMPTY -> bget b (r + 1) c = EMPTY.
Proof.
  unfold gravity. rewrite forallb_forall. split.
  - intros Hg c r Hc Hr He.
    specialize (Hg c). rewrite forallb_forall in Hg.
    specialize (Hg ltac:(by apply list_elem_of_In, elem_of_range) r
                   ltac:(by apply list_elem_of_In, elem_of_range)).
    apply cell_eqb_true in He. rewrite He in Hg. by apply cell_eqb_true in Hg.
  - intros Hg c Hc%list_elem_of_In%elem_of_range. apply forallb_forall.
    intros r Hr%list_elem_of_In%elem_of_range.
    destruct (cell_eqb (bget b r c) EMPTY) eqn:He; [| done]. simpl.
    apply cell_eqb_true. apply Hg; [done.. |]. by apply cell_eqb_true.
Qed.

(** The reading of gravity as contiguity: whatever lies below an occupied
    cell is occupied. *)
Lemma gravity_contiguous (b : board) (c r1 r2 : nat) :
  gravity b = true -> c < COLUMN_COUNT -> r1 <= r2 -> r2 < ROW_COUNT ->
  bget b r2 c <> EMPTY -> bget b r1 c <> EMPTY.
Proof.
  intros Hg Hc Hle Hr2 Hocc He. apply Hocc. clear Hocc.
  rewrite gravity_spec in Hg.
  induction Hle as [|r2 Hle IH]; [done |].
  replace (S r2) with (r2 + 1) by lia.
  apply Hg; [done | unfold ROW_COUNT in *; lia | apply IH; lia].
Qed.

Lemma is_valid_location_Ok (b : board) (col : nat) (v : bool) :
  wf_board b = true -> is_valid_location b col = Ok v ->
  col < COLUMN_COUNT /\ v = cell_eqb (bget b (ROW_COUNT - 1) col) EMPTY.
Proof.
  intros H Hv. assert (Hc : col < COLUMN_COUNT).
  { destruct (wf_board_lookup b (ROW_COUNT - 1) H) as (rw & Hrw & Hlen);
      [unfold ROW_COUNT; lia |].
    unfold is_valid_location, cell_at, idx in Hv. rewrite Hrw in Hv. simpl in Hv.
    destruct (rw !! col) eqn:Hx; [| done].
    rewrite <- Hlen. eapply lookup_lt_Some. exact Hx. }
  rewrite is_valid_location_wf in Hv by done. split; [done | congruence].
Qed.

(** C7: on a board obeying gravity, a piece dropped at the row given by
    [get_next_open_row] lands in the lowest empty cell of the column, and
    the board obeys gravity afterwards. *)
Theorem drop_preserves_gravity (b : board) (col : nat) (piece : cell) :
  wf_board b = true -> gravity b = true ->
  is_valid_location b col = Ok true ->
  exists row b',
    get_next_open_row b col = Ok (Some row) /\
    cell_at b row col = Ok EMPTY /\
    (forall r, r < row -> cell_at b r col <> Ok EMPTY) /\
    drop_piece b row col piece = Ok b' /\
    cell_at b' row col = Ok piece /\
    (forall r c, r < ROW_COUNT -> c < COLUMN_COUNT -> (r, c) <> (row, col) ->
       cell_at b' r c = cell_at b r c) /\
    wf_board b' = true /\ gravity b' = true.
Proof.
  intros H Hg Hv. apply is_valid_location_Ok in Hv as [Hc Htop]; [| done].
  symmetry in Htop. apply cell_eqb_true in Htop.
  destruct (bget_top_empty_open b col H Hc Htop) as (row & Hrow & Hlt & He & Hmin).
  destruct (drop_piece_wf b row col piece H Hlt Hc) as (b' & Hdrop & H' & Hget).
  exists row, b'. repeat split; try done.
  - by rewrite cell_at_wf, He.
  - intros r Hr. rewrite cell_at_wf by (done || lia). intros [= Heq].
    by apply (Hmin r).
  - rewrite cell_at_wf, Hget by done. by rewrite bool_decide_eq_true_2.
  - intros r c Hr Hc' Hne. rewrite !cell_at_wf, Hget by done.
    rewrite bool_decide_eq_false_2; [done |]. intros [-> ->]. done.
  - apply gravity_spec. intros c r Hc' Hr. rewrite !Hget.
    rewrite gravity_spec in Hg.
    repeat case_bool_decide; intros Hr0.
    + lia.
    + destruct_and!; subst. apply Hg; done.
    + destruct_and!; subst. exfalso. apply (Hmin r); [lia | done].
    + by apply Hg.
Qed.

Lemma drop_preserves_gravity_witness :
  wf_board board_midgame = true /\ gravity board_midgame = true /\
  is_valid_location board_midgame 2 = Ok true /\
  exists row b',
    get_next_open_row board_midgame 2 = Ok (Some row) /\
    cell_at board_midgame row 2 = Ok EMPTY /\
    (forall r, r < row -> cell_at board_midgame r 2 <> Ok EMPTY) /\
    drop_piece board_midgame row 2 AI_PIECE = Ok b' /\
    cell_at b' row 2 = Ok AI_PIECE /\
    (forall r c, r < ROW_COUNT -> c < COLUMN_COUNT -> (r, c) <> (row, 2) ->
       cell_at b' r c = cell_at board_midgame r c) /\
    wf_board b' = true /\ gravity b' = true.
Proof.
  split; [reflexivity |]. split; [reflexivity |]. split; [reflexivity |].
  apply drop_preserves_gravity; reflexivity.
Defined.

(** ** The heuristic *)

Lemma count_le_length (w : list cell) (x : cell) : count w x <= length w.
Proof. induction w as [|y w IH]; simpl; [lia |]. destruct (cell_eqb y x); lia. Qed.

Lemma count_two_le_length (w : list cell) (x y : cell) :
  x <> y -> count w x + count w y <= length w.
Proof.
  intros Hne. induction w as [|z w IH]; simpl; [lia |].
  destruct (cell_eqb z x) eqn:Hx, (cell_eqb z y) eqn:Hy; try lia.
  apply cell_eqb_true in Hx, Hy. congruence.
Qed.

Lemma opposing_neq (piece : cell) : opposing piece <> piece.
Proof. by destruct piece. Qed.

(** C4: the score of a 4-cell window is the value of the piece's own
    pattern (100 for four, else 5 for three and one empty, else 2 for two
    and two empty, else 0) plus, checked independently, -4 when the
    opposing piece has three and one cell is empty. *)
Theorem evaluate_window_table (window : list cell) (piece : cell) :
  length window = WINDOW_LENGTH -> piece <> EMPTY ->
  evaluate_window window piece
  = (own_pattern window piece + opp_penalty window piece)%Z.
Proof.
  intros _ _. unfold evaluate_window, own_pattern, opp_penalty.
  replace (if cell_eqb piece PLAYER_PIECE then AI_PIECE else PLAYER_PIECE)
    with (opposing piece) by (by destruct piece).
  repeat case_bool_decide;
    repeat match goal with
           | |- context [?a =? ?b] => destruct (Nat.eqb_spec a b)
           end; simpl; lia.
Qed.

Lemma evaluate_window_table_witness :
  length [AI_PIECE; AI_PIECE; EMPTY; AI_PIECE] = WINDOW_LENGTH /\
  AI_PIECE <> EMPTY /\
  evaluate_window [AI_PIECE; AI_PIECE; EMPTY; AI_PIECE] AI_PIECE
  = (own_pattern [AI_PIECE; AI_PIECE; EMPTY; AI_PIECE] AI_PIECE
     + opp_penalty [AI_PIECE; AI_PIECE; EMPTY; AI_PIECE] AI_PIECE)%Z.
Proof.
  split; [reflexivity |]. split; [discriminate |].
  apply evaluate_window_table; [reflexivity | discriminate].
Defined.

(** In a 4-cell window the two checks never fire together, so a window
    is worth 100, 5, 2, -4 or 0. *)
Lemma evaluate_window_exclusive (window : list cell) (piece : cell) :
  length window = WINDOW_LENGTH -> piece <> EMPTY ->
  own_pattern window piece = 0%Z \/ opp_penalty window piece = 0%Z.
Proof.
  intros Hlen Hp. unfold own_pattern, opp_penalty, WINDOW_LENGTH in *.
  pose proof (count_two_le_length window _ _ (opposing_neq piece)).
  repeat case_bool_decide; auto; lia.
Qed.

Lemma evaluate_window_bounds (window : list cell) (piece : cell) :
  (-4 <= evaluate_window window piece <= 100)%Z.
Proof.
  unfold evaluate_window.
  repeat match goal with
         | |- context [?a =? ?b] => destruct (Nat.eqb_spec a b)
         end; simpl; lia.
Qed.

Lemma length7_inv {A} (l : list A) :
  length l = 7 -> exists a0 a1 a2 a3 a4 a5 a6, l = [a0; a1; a2; a3; a4; a5; a6].
Proof.
  intros H. do 8 (destruct l as [|? l]; try discriminate H).
  by repeat eexists.
Qed.

(** A well-formed board is a grid of 42 cells. *)
Ltac grid b H :=
  let Hl := fresh "Hl" in
  let Hrows := fresh "Hrows" in
  apply wf_board_Forall in H as [Hl Hrows];
  do 7 (destruct b as [|? b]; try discriminate Hl); clear Hl;
  repeat match goal with
         | Hr : Forall _ (_ :: _) |- _ =>
             let Ha := fresh "Ha" in
             apply Forall_cons in Hr as [Ha Hr];
             apply length7_inv in Ha as (? & ? & ? & ? & ? & ? & ? & ->)
         end;
  clear Hrows.

Lemma score_position_wf (b : board) (piece : cell) :
  wf_board b = true -> score_position b piece = Ok (score_spec b piece).
Proof.
  intros H. grid b H.
  cbv -[evaluate_window count Z.add Z.mul Z.of_nat].
  f_equal. ring.
Qed.

(** C5: the score of a position is the sum of [evaluate_window] over all
    horizontal, vertical and diagonal length-4 windows of the grid, plus,
    once, three times the number of the piece's cells in column 3. *)
Theorem score_position_sum (b : board) (piece : cell) :
  wf_board b = true ->
  score_position b piece
  = Ok (sum_Z (map (fun w => evaluate_window (window_cells b w) piece) all_windows)
        + 3 * Z.of_nat (count (map (fun r => bget b r 3) (range ROW_COUNT)) piece))%Z.
Proof. intros H. by rewrite score_position_wf. Qed.

Lemma score_position_sum_witness :
  wf_board board_midgame = true /\
  score_position board_midgame AI_PIECE
  = Ok (sum_Z (map (fun w => evaluate_window (window_cells board_midgame w) AI_PIECE)
                   all_windows)
        + 3 * Z.of_nat (count (map (fun r => bget board_midgame r 3) (range ROW_COUNT))
                              AI_PIECE))%Z.
Proof. split; [reflexivity | apply score_position_sum; reflexivity]. Defined.

(** ** Minimax: one unfolding *)

Lemma bind_lift_Ok {A B} (a : A) (k : A -> M B) : bind_m (lift (Ok a)) k = k a.
Proof. reflexivity. Qed.

Lemma minimax_unfold (fuel : nat) (b : board) (depth : Z) (maximizingPlayer : bool) :
  minimax (S fuel) b depth maximizingPlayer =
  bind_m (lift (get_valid_locations b)) (fun valid_locations =>
  bind_m (lift (is_terminal_node b)) (fun is_terminal =>
    if (depth =? 0)%Z || is_terminal then
      if is_terminal then
        bind_m (lift (winning_move b AI_PIECE)) (fun ai =>
        if ai then ret_m (None, Fin 100000000000000)
        else
          bind_m (lift (winning_move b PLAYER_PIECE)) (fun pl =>
          if pl then ret_m (None, Fin (-10000000000000))
          else ret_m (None, Fin 0)))
      else
        bind_m (lift (score_position b AI_PIECE)) (fun s => ret_m (None, Fin s))
    else if maximizingPlayer then
      bind_m (random_choice valid_locations) (fun column =>
        max_loop (minimax fuel) b depth valid_locations NegInf (Some column))
    else
      bind_m (random_choice valid_locations) (fun column =>
        min_loop (minimax fuel) b depth valid_locations PosInf (Some column)))).
Proof. reflexivity. Qed.

Lemma winning_move_wins (b : board) (piece : cell) :
  wf_board b = true -> winning_move b piece = Ok (wins b piece).
Proof. apply winning_move_scan. Qed.

Lemma get_valid_locations_open (b : board) :
  wf_board b = true -> get_valid_locations b = Ok (open_columns b).
Proof. apply get_valid_locations_wf. Qed.

Lemma is_terminal_node_wf (b : board) :
  wf_board b = true -> is_terminal_node b = Ok (terminal b).
Proof.
  intros H. unfold is_terminal_node, terminal, or_m.
  rewrite !winning_move_wins, get_valid_locations_open by done.
  unfold rbind. by destruct (wins b PLAYER_PIECE), (wins b AI_PIECE).
Qed.

(** What [minimax] does on a well-formed board, one level deep. *)
Lemma minimax_step (fuel : nat) (b : board) (depth : Z) (m : bool) :
  wf_board b = true ->
  minimax (S fuel) b depth m =
  if (depth =? 0)%Z || terminal b then
    if terminal b then
      if wins b AI_PIECE then ret_m (None, Fin AI_WIN_SCORE)
      else if wins b PLAYER_PIECE then ret_m (None, Fin PLAYER_WIN_SCORE)
      else ret_m (None, Fin 0)
    else ret_m (None, Fin (score_spec b AI_PIECE))
  else if m then
    bind_m (random_choice (open_columns b)) (fun column =>
      max_loop (minimax fuel) b depth (open_columns b) NegInf (Some column))
  else
    bind_m (random_choice (open_columns b)) (fun column =>
      min_loop (minimax fuel) b depth (open_columns b) PosInf (Some column)).
Proof.
  intros H. rewrite minimax_unfold.
  rewrite get_valid_locations_open, is_terminal_node_wf, !winning_move_wins,
    score_position_wf by done.
  rewrite !bind_lift_Ok.
  destruct ((depth =? 0)%Z || terminal b); [| done].
  destruct (terminal b); [| done].
  rewrite ?bind_lift_Ok. destruct (wins b AI_PIECE); [done |].
  rewrite ?bind_lift_Ok. by destruct (wins b PLAYER_PIECE).
Qed.

(** ** One simulated move *)

Lemma count_insert (rw : list cell) (c : nat) (piece : cell) :
  rw !! c = Some EMPTY -> piece <> EMPTY ->
  count (<[c := piece]> rw) EMPTY + 1 = count rw EMPTY.
Proof.
  intros Hc Hp. revert c Hc. induction rw as [|x rw IH]; intros [|c] Hc;
    simpl in *; try done.
  - injection Hc as ->. apply cell_eqb_false in Hp. rewrite Hp.
    unfold cell_eqb. rewrite bool_decide_eq_true_2 by done. lia.
  - specialize (IH c Hc). lia.
Qed.

Lemma count_empty_insert (b : board) (r : nat) (rw rw' : list cell) :
  b !! r = Some rw -> count rw' EMPTY + 1 = count rw EMPTY ->
  count_empty (<[r := rw']> b) + 1 = count_empty b.
Proof.
  unfold count_empty. intros Hr Hcount. revert r Hr.
  induction b as [|x b IH]; intros [|r] Hr; simpl in *; try done.
  - injection Hr as ->. lia.
  - specialize (IH r Hr). lia.
Qed.

Lemma elem_of_open_columns (b : board) (c : nat) :
  c ∈ open_columns b <-> c < COLUMN_COUNT /\ bget b (ROW_COUNT - 1) c = EMPTY.
Proof. unfold open_columns. rewrite list_elem_of_filter, elem_of_range. tauto. Qed.

(** Simulating a move in an open column succeeds and uses up a free cell. *)
Lemma simulate_move (b : board) (c : nat) (piece : cell) :
  wf_board b = true -> c ∈ open_columns b -> piece <> EMPTY ->
  exists row b',
    get_next_open_row b c = Ok (Some row) /\
    drop_piece_at b (Some row) c piece = Ok b' /\
    wf_board b' = true /\ count_empty b' + 1 = count_empty b.
Proof.
  intros H [Hc Htop]%elem_of_open_columns Hp.
  destruct (bget_top_empty_open b c H Hc Htop) as (row & Hrow & Hlt & He & _).
  destruct (drop_piece_wf b row c piece H Hlt Hc) as (b' & Hdrop & H' & _).
  exists row, b'. repeat split; try done.
  destruct (wf_board_lookup b row H Hlt) as (rw & Hrw & Hlen).
  unfold drop_piece, idx in Hdrop. rewrite Hrw in Hdrop. simpl in Hdrop.
  unfold bget in He. rewrite Hrw in He.
  destruct (rw !! c) as [x|] eqn:Hx; [| done]. simpl in Hdrop. subst x.
  injection Hdrop as <-.
  eapply count_empty_insert; [done |]. by apply count_insert.
Qed.

(** One iteration of the maximizing loop. *)
Lemma max_loop_cons (rec : board -> Z -> bool -> M result) (n : nat) (b : board)
    (d : Z) (c : nat) (cs : list nat) :
  wf_board b = true -> count_empty b <= n -> answers rec n ->
  c ∈ open_columns b ->
  exists s, forall value column g, exists g',
    max_loop rec b d (c :: cs) value column g
    = (if ext_ltb value (Fin s)
       then max_loop rec b d cs (Fin s) (Some c)
       else max_loop rec b d cs value column) g'.
Proof.
  intros H Hn Hrec Hc.
  destruct (simulate_move b c AI_PIECE H Hc ltac:(done))
    as (row & b' & Hrow & Hdrop & H' & Hcount).
  destruct (Hrec b' (d - 1)%Z false H' ltac:(lia)) as (col & s & Hs).
  exists s. intros value column g. destruct (Hs g) as [g' Hg'].
  exists g'. simpl. unfold bind_m, lift. by rewrite Hrow, Hdrop, Hg'.
Qed.

(** One iteration of the minimizing loop. *)
Lemma min_loop_cons (rec : board -> Z -> bool -> M result) (n : nat) (b : board)
    (d : Z) (c : nat) (cs : list nat) :
  wf_board b = true -> count_empty b <= n -> answers rec n ->
  c ∈ open_columns b ->
  exists s, forall value column g, exists g',
    min_loop rec b d (c :: cs) value column g
    = (if ext_ltb (Fin s) value
       then min_loop rec b d cs (Fin s) (Some c)
       else min_loop rec b d cs value column) g'.
Proof.
  intros H Hn Hrec Hc.
  destruct (simulate_move b c PLAYER_PIECE H Hc ltac:(done))
    as (row & b' & Hrow & Hdrop & H' & Hcount).
  destruct (Hrec b' (d - 1)%Z true H' ltac:(lia)) as (col & s & Hs).
  exists s. intros value column g. destruct (Hs g) as [g' Hg'].
  exists g'. simpl. unfold bind_m, lift. by rewrite Hrow, Hdrop, Hg'.
Qed.

(** The loops run to the end; the incumbent is either kept or replaced by
    one of the columns tried, with a finite score. *)
Lemma max_loop_total (rec : board -> Z -> bool -> M result) (n : nat) (b : board)
    (d : Z) :
  wf_board b = true -> count_empty b <= n -> answers rec n ->
  forall cs, (forall c, c ∈ cs -> c ∈ open_columns b) ->
  forall value column, exists col v,
    (forall g, exists g', max_loop rec b d cs value column g = (Ok (col, v), g')) /\
    ((col = column /\ v = value) \/
     (exists c s, col = Some c /\ c ∈ cs /\ v = Fin s)).
Proof.
  intros H Hn Hrec. induction cs as [|c cs IH]; intros Hcs value column.
  - exists column, value. split; [| by left]. intros g. by exists g.
  - destruct (max_loop_cons rec n b d c cs H Hn Hrec) as [s Hstep];
      [apply Hcs; by left |].
    assert (Hcs' : forall c', c' ∈ cs -> c' ∈ open_columns b)
      by (intros; apply Hcs; by right).
    destruct (ext_ltb value (Fin s)) eqn:Hlt.
    + destruct (IH Hcs' (Fin s) (Some c)) as (col & v & Hrun & Hres).
      exists col, v. split.
      * intros g. destruct (Hstep value column g) as [g1 Hg1].
        rewrite Hg1, Hlt. apply Hrun.
      * right. destruct Hres as [[-> ->] | (c' & s' & -> & Hin & ->)].
        -- exists c, s. repeat split. by left.
        -- exists c', s'. repeat split. by right.
    + destruct (IH Hcs' value column) as (col & v & Hrun & Hres).
      exists col, v. split.
      * intros g. destruct (Hstep value column g) as [g1 Hg1].
        rewrite Hg1, Hlt. apply Hrun.
      * destruct Hres as [? | (c' & s' & -> & Hin & ->)]; [by left |].
        right. exists c', s'. repeat split. by right.
Qed.

Lemma min_loop_total (rec : board -> Z -> bool -> M result) (n : nat) (b : board)
    (d : Z) :
  wf_board b = true -> count_empty b <= n -> answers rec n ->
  forall cs, (forall c, c ∈ cs -> c ∈ open_columns b) ->
  forall value column, exists col v,
    (forall g, exists g', min_loop rec b d cs value column g = (Ok (col, v), g')) /\
    ((col = column /\ v = value) \/
     (exists c s, col = Some c /\ c ∈ cs /\ v = Fin s)).
Proof.
  intros H Hn Hrec. induction cs as [|c cs IH]; intros Hcs value column.
  - exists column, value. split; [| by left]. intros g. by exists g.
  - destruct (min_loop_cons rec n b d c cs H Hn Hrec) as [s Hstep];
      [apply Hcs; by left |].
    assert (Hcs' : forall c', c' ∈ cs -> c' ∈ open_columns b)
      by (intros; apply Hcs; by right).
    destruct (ext_ltb (Fin s) value) eqn:Hlt.
    + destruct (IH Hcs' (Fin s) (Some c)) as (col & v & Hrun & Hres).
      exists col, v. split.
      * intros g. destruct (Hstep value column g) as [g1 Hg1].
        rewrite Hg1, Hlt. apply Hrun.
      * right. destruct Hres as [[-> ->] | (c' & s' & -> & Hin & ->)].
        -- exists c, s. repeat split. by left.
        -- exists c', s'. repeat split. by right.
    + destruct (IH Hcs' value column) as (col & v & Hrun & Hres).
      exists col, v. split.
      * intros g. destruct (Hstep value column g) as [g1 Hg1].
        rewrite Hg1, Hlt. apply Hrun.
      * destruct Hres as [? | (c' & s' & -> & Hin & ->)]; [by left |].
        right. exists c', s'. repeat split. by right.
Qed.

(** ** Minimax answers, and what it answers *)

Lemma terminal_false_open (b : board) :
  terminal b = false -> open_columns b <> [].
Proof.
  unfold terminal. intros Ht Hnil. rewrite Hnil in Ht. simpl in Ht.
  by rewrite !orb_true_r in Ht.
Qed.

Lemma random_choice_cons (c : nat) (cs : list nat) (g : rng) :
  exists x g', random_choice (c :: cs) g = (Ok x, g').
Proof. unfold random_choice. eauto. Qed.

(** With more fuel than free cells, [minimax] returns on every well-formed
    board, never raises, and its answer does not depend on the random
    draws.  The column is [None] in the base case and an open column
    otherwise. *)
Lemma minimax_answers (fuel : nat) (b : board) (d : Z) (m : bool) :
  wf_board b = true -> count_empty b < fuel ->
  exists col s,
    (forall g, exists g', minimax fuel b d m g = (Ok (col, Fin s), g')) /\
    (if (d =? 0)%Z || terminal b then col = None
     else exists c, col = Some c /\ c ∈ open_columns b).
Proof.
  revert b d m. induction fuel as [|fuel IH]; intros b d m H Hfuel; [lia |].
  rewrite minimax_step by done.
  destruct ((d =? 0)%Z || terminal b) eqn:Hbase.
  - destruct (terminal b);
      [destruct (wins b AI_PIECE); [| destruct (wins b PLAYER_PIECE)] |];
      eexists None, _; (split; [intros g; exists g; reflexivity | done]).
  - apply orb_false_iff in Hbase as [_ Hterm].
    apply terminal_false_open in Hterm.
    destruct (open_columns b) as [|c cs] eqn:Hopen; [done |].
    assert (Hrec : answers (minimax fuel) fuel).
    { intros b' d' m' H' Hlt. destruct (IH b' d' m' H' Hlt) as (col & s & Hrun & _).
      eauto. }
    assert (Hc : c ∈ open_columns b) by (rewrite Hopen; by left).
    assert (Hcs : forall c', c' ∈ cs -> c' ∈ open_columns b)
      by (intros; rewrite Hopen; by right).
    destruct m.
    + destruct (max_loop_cons (minimax fuel) fuel b d c cs H ltac:(lia) Hrec Hc)
        as [s Hstep].
      destruct (max_loop_total (minimax fuel) fuel b d H ltac:(lia) Hrec cs Hcs
                  (Fin s) (Some c)) as (col & v & Hrun & Hres).
      assert (Hcol : exists c' s', col = Some c' /\ c' ∈ c :: cs /\ v = Fin s').
      { destruct Hres as [[-> ->] | (c' & s' & -> & Hin & ->)].
        - exists c, s. repeat split. by left.
        - exists c', s'. repeat split. by right. }
      destruct Hcol as (c' & s' & -> & Hin & ->).
      exists (Some c'), s'. split; [| by exists c'].
      intros g. destruct (random_choice_cons c cs g) as (x & g1 & Hx).
      unfold bind_m. rewrite Hx.
      destruct (Hstep NegInf (Some x) g1) as [g2 Hg2]. rewrite Hg2.
      simpl ext_ltb. cbv iota. apply Hrun.
    + destruct (min_loop_cons (minimax fuel) fuel b d c cs H ltac:(lia) Hrec Hc)
        as [s Hstep].
      destruct (min_loop_total (minimax fuel) fuel b d H ltac:(lia) Hrec cs Hcs
                  (Fin s) (Some c)) as (col & v & Hrun & Hres).
      assert (Hcol : exists c' s', col = Some c' /\ c' ∈ c :: cs /\ v = Fin s').
      { destruct Hres as [[-> ->] | (c' & s' & -> & Hin & ->)].
        - exists c, s. repeat split. by left.
        - exists c', s'. repeat split. by right. }
      destruct Hcol as (c' & s' & -> & Hin & ->).
      exists (Some c'), s'. split; [| by exists c'].
      intros g. destruct (random_choice_cons c cs g) as (x & g1 & Hx).
      unfold bind_m. rewrite Hx.
      destruct (Hstep PosInf (Some x) g1) as [g2 Hg2]. rewrite Hg2.
      simpl ext_ltb. cbv iota. apply Hrun.
Qed.

(** ** More fuel changes nothing *)

Lemma max_loop_mono (rec1 rec2 : board -> Z -> bool -> M result) :
  (forall b d m g r g', rec1 b d m g = (Ok r, g') -> rec2 b d m g = (Ok r, g')) ->
  forall cs b d value column g r g',
    max_loop rec1 b d cs value column g = (Ok r, g') ->
    max_loop rec2 b d cs value column g = (Ok r, g').
Proof.
  intros Hrec. induction cs as [|c cs IH]; intros b d value column g r g' Hrun;
    [done |].
  simpl in *. unfold bind_m, lift in *.
  destruct (get_next_open_row b c) as [row|]; [| done].
  destruct (drop_piece_at b row c AI_PIECE) as [b'|]; [| done].
  destruct (rec1 b' (d - 1)%Z false g) as [[r1|e] g1] eqn:H1; [| done].
  rewrite (Hrec _ _ _ _ _ _ H1).
  destruct (ext_ltb value r1.2); by apply IH.
Qed.

Lemma min_loop_mono (rec1 rec2 : board -> Z -> bool -> M result) :
  (forall b d m g r g', rec1 b d m g = (Ok r, g') -> rec2 b d m g = (Ok r, g')) ->
  forall cs b d value column g r g',
    min_loop rec1 b d cs value column g = (Ok r, g') ->
    min_loop rec2 b d cs value column g = (Ok r, g').
Proof.
  intros Hrec. induction cs as [|c cs IH]; intros b d value column g r g' Hrun;
    [done |].
  simpl in *. unfold bind_m, lift in *.
  destruct (get_next_open_row b c) as [row|]; [| done].
  destruct (drop_piece_at b row c PLAYER_PIECE) as [b'|]; [| done].
  destruct (rec1 b' (d - 1)%Z true g) as [[r1|e] g1] eqn:H1; [| done].
  rewrite (Hrec _ _ _ _ _ _ H1).
  destruct (ext_ltb r1.2 value); by apply IH.
Qed.

Lemma minimax_fuel_S (fuel : nat) :
  forall b d m g r g',
    minimax fuel b d m g = (Ok r, g') -> minimax (S fuel) b d m g = (Ok r, g').
Proof.
  induction fuel as [|fuel IH]; intros b d m g r g' Hrun; [done |].
  rewrite minimax_unfold in Hrun. rewrite minimax_unfold.
  unfold bind_m, lift in *.
  destruct (get_valid_locations b) as [vl|]; [| done].
  destruct (is_terminal_node b) as [t|]; [| done].
  destruct ((d =? 0)%Z || t); [done |].
  destruct m.
  - destruct (random_choice vl g) as [[x|e] g1]; [| done].
    by apply (max_loop_mono (minimax fuel)).
  - destruct (random_choice vl g) as [[x|e] g1]; [| done].
    by apply (min_loop_mono (minimax fuel)).
Qed.

Lemma minimax_fuel_le (fuel fuel' : nat) (b : board) (d : Z) (m : bool)
    (g g' : rng) (r : result) :
  fuel <= fuel' ->
  minimax fuel b d m g = (Ok r, g') -> minimax fuel' b d m g = (Ok r, g').
Proof.
  induction 1 as [|fuel' Hle IH]; [done |].
  intros Hrun. by apply minimax_fuel_S, IH.
Qed.

(** ** The base case *)

Lemma minimax_terminal_scores (fuel : nat) (b : board) (d : Z) (m : bool) (g : rng) :
  wf_board b = true -> terminal b = true ->
  minimax (S fuel) b d m g
  = (Ok (None, Fin (if wins b AI_PIECE then AI_WIN_SCORE
                    else if wins b PLAYER_PIECE then PLAYER_WIN_SCORE
                    else 0%Z)), g).
Proof.
  intros H Ht. rewrite minimax_step by done. rewrite Ht, orb_true_r.
  by destruct (wins b AI_PIECE), (wins b PLAYER_PIECE).
Qed.

Lemma sum_Z_bounds {A} (f : A -> Z) (lo hi : Z) (l : list A) :
  (forall x, lo <= f x <= hi)%Z ->
  (Z.of_nat (length l) * lo <= sum_Z (map f l) <= Z.of_nat (length l) * hi)%Z.
Proof.
  intros Hf. induction l as [|x l IH]; [simpl; lia |].
  specialize (Hf x). cbn [map sum_Z foldr length]. fold (sum_Z (map f l)). lia.
Qed.

(** Every heuristic value lies strictly between the two win scores. *)
Lemma score_spec_bounds (b : board) (piece : cell) :
  (PLAYER_WIN_SCORE < -276 <= score_spec b piece
   /\ score_spec b piece <= 6918 < AI_WIN_SCORE)%Z.
Proof.
  unfold score_spec, PLAYER_WIN_SCORE, AI_WIN_SCORE.
  pose proof (sum_Z_bounds (fun w => evaluate_window (window_cells b w) piece)
                (-4) 100 all_windows
                (fun w => evaluate_window_bounds _ _)) as Hsum.
  change (length all_windows) with 69 in Hsum.
  pose proof (count_le_length (map (fun r => bget b r 3) (range ROW_COUNT)) piece)
    as Hcount.
  rewrite length_map in Hcount. change (length (range ROW_COUNT)) with 6 in Hcount.
  lia.
Qed.

(** C1: on the board where the human player has four in a row (and the
    computer has not), [minimax] returns the score -10000000000000, whose
    magnitude is a tenth of the win score 100000000000000. *)
Theorem minimax_player_win_score (fuel : nat) (depth : Z) (m : bool) (g : rng) :
  minimax (S fuel) board_player_won depth m g
  = (Ok (None, Fin (-10000000000000)), g)
  /\ (- (-10000000000000) <> 100000000000000)%Z.
Proof.
  split; [| lia].
  by rewrite minimax_terminal_scores by (vm_compute; reflexivity).
Qed.

(** C3: on a board that is not terminal, depth 0 returns no column and the
    heuristic score of the board for the computer's piece, for either
    value of the maximizing flag. *)
Theorem minimax_depth_zero (b : board) (fuel : nat) (m : bool) (g : rng) :
  wf_board b = true -> is_terminal_node b = Ok false ->
  exists s, score_position b AI_PIECE = Ok s /\
    minimax (S fuel) b 0 m g = (Ok (None, Fin s), g).
Proof.
  intros H Ht. rewrite is_terminal_node_wf in Ht by done.
  injection Ht as Ht. exists (score_spec b AI_PIECE).
  split; [by apply score_position_wf |].
  rewrite minimax_step by done. by rewrite Ht.
Qed.

Lemma minimax_depth_zero_witness :
  wf_board board_midgame = true /\ is_terminal_node board_midgame = Ok false /\
  exists s, score_position board_midgame AI_PIECE = Ok s /\
    minimax 1 board_midgame 0 false draws_up = (Ok (None, Fin s), draws_up).
Proof.
  split; [reflexivity |]. split; [reflexivity |].
  apply minimax_depth_zero; reflexivity.
Defined.

(** C10: when both pieces have four in a row, [minimax] reports a win of
    the computer, whatever the depth and the maximizing flag. *)
Theorem minimax_both_won (b : board) (fuel : nat) (depth : Z) (m : bool) (g : rng) :
  wf_board b = true ->
  winning_move b AI_PIECE = Ok true -> winning_move b PLAYER_PIECE = Ok true ->
  minimax (S fuel) b depth m g = (Ok (None, Fin 100000000000000), g).
Proof.
  intros H Hai Hpl. rewrite winning_move_wins in Hai, Hpl by done.
  injection Hai as Hai. injection Hpl as Hpl.
  rewrite minimax_terminal_scores; [by rewrite Hai | done |].
  unfold terminal. by rewrite Hpl.
Qed.

Lemma minimax_both_won_witness :
  wf_board board_both_won = true /\
  winning_move board_both_won AI_PIECE = Ok true /\
  winning_move board_both_won PLAYER_PIECE = Ok true /\
  minimax 1 board_both_won 4 false draws_zero
  = (Ok (None, Fin 100000000000000), draws_zero).
Proof.
  split; [reflexivity |]. split; [reflexivity |]. split; [reflexivity |].
  apply minimax_both_won; reflexivity.
Defined.

(** ** The column returned *)

(** C2, as stated, fails: at depth 0 the empty board has seven valid moves
    and [minimax] still returns no column. *)
Lemma minimax_none_with_valid_moves :
  get_valid_locations create_board = Ok [0; 1; 2; 3; 4; 5; 6] /\
  minimax 43 create_board 0 true draws_zero = (Ok (None, Fin 0), draws_zero).
Proof. split; vm_compute; reflexivity. Qed.

(** C2, amended: on a well-formed board [minimax] never raises; it returns
    no column when the depth is 0 or the board is terminal (in particular
    when there is no valid move), and a member of
    [get_valid_locations] otherwise. *)
Theorem minimax_column (fuel : nat) (b : board) (depth : Z) (m : bool) :
  wf_board b = true -> count_empty b < fuel ->
  exists vl col s,
    get_valid_locations b = Ok vl /\
    (forall g, exists g', minimax fuel b depth m g = (Ok (col, Fin s), g')) /\
    (depth = 0%Z \/ is_terminal_node b = Ok true -> col = None) /\
    (depth <> 0%Z -> is_terminal_node b = Ok false ->
       exists c, col = Some c /\ c ∈ vl) /\
    (vl = [] -> col = None).
Proof.
  intros H Hfuel.
  destruct (minimax_answers fuel b depth m H Hfuel) as (col & s & Hrun & Hcol).
  exists (open_columns b), col, s.
  rewrite is_terminal_node_wf by done.
  split; [by apply get_valid_locations_open |]. split; [done |].
  destruct (Z.eqb_spec depth 0) as [Hd|Hd]; simpl in Hcol.
  - repeat split; done.
  - repeat split.
    + intros [? | [= Ht]]; [done |]. by rewrite Ht in Hcol.
    + intros _ [= Ht]. by rewrite Ht in Hcol.
    + intros Hnil. unfold terminal in Hcol. rewrite Hnil in Hcol.
      simpl in Hcol. by rewrite !orb_true_r in Hcol.
Qed.

Lemma minimax_column_witness :
  wf_board board_midgame = true /\ count_empty board_midgame < 43 /\
  exists vl col s,
    get_valid_locations board_midgame = Ok vl /\
    (forall g, exists g',
       minimax 43 board_midgame 2 true g = (Ok (col, Fin s), g')) /\
    (2%Z = 0%Z \/ is_terminal_node board_midgame = Ok true -> col = None) /\
    (2%Z <> 0%Z -> is_terminal_node board_midgame = Ok false ->
       exists c, col = Some c /\ c ∈ vl) /\
    (vl = [] -> col = None).
Proof.
  split; [reflexivity |]. split; [vm_compute; lia |].
  apply minimax_column; [reflexivity | vm_compute; lia].
Defined.

(** ** Determinism *)

(** C6: two calls of [minimax] on the same board, depth and flag return
    the same (column, score), whatever the random draws of either call. *)
Theorem minimax_deterministic (fuel1 fuel2 : nat) (b : board) (depth : Z)
    (m : bool) (g1 g2 : rng) :
  wf_board b = true -> count_empty b < fuel1 -> count_empty b < fuel2 ->
  exists r, (minimax fuel1 b depth m g1).1 = Ok r /\
            (minimax fuel2 b depth m g2).1 = Ok r.
Proof.
  intros H Hf1 Hf2.
  destruct (minimax_answers fuel1 b depth m H Hf1) as (col1 & s1 & Hrun1 & _).
  destruct (minimax_answers fuel2 b depth m H Hf2) as (col2 & s2 & Hrun2 & _).
  destruct (Hrun1 g1) as [g1' Hr1]. destruct (Hrun2 g1) as [g1'' Hr2].
  destruct (Hrun2 g2) as [g2' Hr2'].
  pose proof (minimax_fuel_le fuel1 (fuel1 `max` fuel2) _ _ _ _ _ _
                ltac:(lia) Hr1) as Hm1.
  pose proof (minimax_fuel_le fuel2 (fuel1 `max` fuel2) _ _ _ _ _ _
                ltac:(lia) Hr2) as Hm2.
  rewrite Hm1 in Hm2. injection Hm2 as -> -> _.
  exists (col2, Fin s2). by rewrite Hr1, Hr2'.
Qed.

Lemma minimax_deterministic_witness :
  wf_board board_midgame = true /\ count_empty board_midgame < 43 /\
  count_empty board_midgame < 50 /\
  exists r, (minimax 43 board_midgame 3 true draws_zero).1 = Ok r /\
            (minimax 50 board_midgame 3 true draws_up).1 = Ok r.
Proof.
  split; [reflexivity |]. split; [vm_compute; lia |]. split; [vm_compute; lia |].
  apply minimax_deterministic; [reflexivity | vm_compute; lia..].
Defined.

(** ** Concrete runs *)

Example minimax_ai_win_run :
  minimax 1 board_ai_won 4 true draws_zero
  = (Ok (None, Fin 100000000000000), draws_zero).
Proof. vm_compute. reflexivity. Qed.

Example minimax_draw_run :
  get_valid_locations board_full_draw = Ok [] /\
  minimax 1 board_full_draw 4 true draws_zero = (Ok (None, Fin 0), draws_zero).
Proof. split; vm_compute; reflexivity. Qed.

Example minimax_opening_run :
  (minimax 43 create_board 1 true draws_up).1 = Ok (Some 3, Fin 3).
Proof. vm_compute. reflexivity. Qed.

Example minimax_midgame_run :
  (minimax 43 board_midgame 3 true draws_zero).1 = Ok (Some 2, Fin 28) /\
  (minimax 43 board_midgame 3 true draws_up).1 = Ok (Some 2, Fin 28).
Proof. split; vm_compute; reflexivity. Qed.

(** * Further properties of the code *)

(** ** Win detection and terminal boards *)

(** X1: on a well-formed board [winning_move] never raises, and it answers
    [True] exactly when four cells in a row, a column or a diagonal all hold
    the piece. *)
Theorem winning_move_iff_four (b : board) (piece : cell) :
  wf_board b = true ->
  exists t, winning_move b piece = Ok t /\ (t = true <-> has_four b piece).
Proof.
  intros H. destruct (winning_move_total b piece H) as [t Ht]. exists t.
  split; [done |]. rewrite <- (winning_move_has_four b piece H), Ht.
  split; [by intros -> | by intros [= ->]].
Qed.

Lemma winning_move_iff_four_witness :
  wf_board board_midgame = true /\
  exists t, winning_move board_midgame AI_PIECE = Ok t /\
            (t = true <-> has_four board_midgame AI_PIECE).
Proof. split; [reflexivity | apply winning_move_iff_four; reflexivity]. Defined.

(** X2: on a well-formed board [is_terminal_node] never raises, and it is
    [True] exactly when the player has four in a row, or the computer has,
    or no column is valid. *)
Theorem is_terminal_node_iff (b : board) :
  wf_board b = true ->
  exists t, is_terminal_node b = Ok t /\
    (t = true <->
     has_four b PLAYER_PIECE \/ has_four b AI_PIECE \/ get_valid_locations b = Ok []).
Proof.
  intros H. exists (terminal b). split; [by apply is_terminal_node_wf |].
  rewrite <- !(winning_move_has_four b _ H), !winning_move_wins by done.
  rewrite get_valid_locations_open by done.
  unfold terminal. rewrite !orb_true_iff, Nat.eqb_eq, length_zero_iff_nil.
  split.
  - intros [-> | [-> | ->]]; auto.
  - intros [[= ->] | [[= ->] | [= ->]]]; auto.
Qed.

Lemma is_terminal_node_iff_witness :
  wf_board board_full_draw = true /\
  exists t, is_terminal_node board_full_draw = Ok t /\
    (t = true <->
     has_four board_full_draw PLAYER_PIECE \/ has_four board_full_draw AI_PIECE \/
     get_valid_locations board_full_draw = Ok []).
Proof. split; [reflexivity | apply is_terminal_node_iff; reflexivity]. Defined.

Lemma mirror_wf (b : board) : wf_board b = true -> wf_board (mirror b) = true.
Proof.
  rewrite !wf_board_Forall. unfold mirror. intros [Hlen Hrows]. split.
  - by rewrite length_fmap.
  - apply Forall_fmap. eapply Forall_impl; [done |].
    intros row Hrow. simpl. by rewrite length_reverse.
Qed.

Lemma mirror_involutive (b : board) : mirror (mirror b) = b.
Proof.
  unfold mirror. rewrite <- list_fmap_compose. rewrite <- (list_fmap_id b) at 2.
  apply list_fmap_ext. intros i row _. simpl. apply reverse_involutive.
Qed.

Lemma bget_mirror (b : board) (rc : nat * nat) :
  wf_board b = true -> in_grid rc = true ->
  bget (mirror b) rc.1 rc.2 = bget b (flip rc).1 (flip rc).2.
Proof.
  intros H Hg. destruct rc as [r c]. unfold in_grid in Hg. simpl in *.
  apply andb_true_iff in Hg as [Hr Hc]. apply Nat.ltb_lt in Hr, Hc.
  unfold bget, mirror, flip. simpl. rewrite list_lookup_fmap.
  destruct (wf_board_lookup b r H Hr) as (row & Hrow & Hrl).
  rewrite Hrow. simpl. rewrite reverse_lookup by lia. rewrite Hrl.
  by replace (COLUMN_COUNT - S c) with (6 - c) by (unfold COLUMN_COUNT; lia).
Qed.

Lemma flip_in_grid (rc : nat * nat) : in_grid rc = true -> in_grid (flip rc) = true.
Proof.
  unfold in_grid, flip. simpl. rewrite !andb_true_iff, !Nat.ltb_lt.
  unfold COLUMN_COUNT. lia.
Qed.

Lemma flip_involutive (rc : nat * nat) : in_grid rc = true -> flip (flip rc) = rc.
Proof.
  destruct rc as [r c]. unfold in_grid, flip. simpl.
  rewrite !andb_true_iff, !Nat.ltb_lt. unfold COLUMN_COUNT.
  intros [Hr Hc]. f_equal; lia.
Qed.

(** The mirror image of a window is a window, read in one direction or
    the other. *)
Lemma flip_window_closed (w : list (nat * nat)) :
  w ∈ all_windows ->
  exists w', w' ∈ all_windows /\ forall rc, rc ∈ w' -> rc ∈ (flip <$> w).
Proof.
  assert (H : forallb (fun w =>
              bool_decide ((flip <$> w) ∈ all_windows)
              || bool_decide (reverse (flip <$> w) ∈ all_windows))
            all_windows = true) by (vm_compute; reflexivity).
  rewrite forallb_forall in H. intros Hw.
  apply list_elem_of_In, H, orb_true_iff in Hw as [Hw | Hw];
    apply bool_decide_eq_true in Hw.
  - exists (flip <$> w). by split.
  - exists (reverse (flip <$> w)). split; [done |].
    intros rc Hrc. by apply elem_of_reverse.
Qed.

Lemma has_four_mirror (b : board) (piece : cell) :
  wf_board b = true -> has_four b piece -> has_four (mirror b) piece.
Proof.
  intros H (w & Hw & Hfull).
  destruct (flip_window_closed w Hw) as (w' & Hw' & Hsub).
  exists w'. split; [done |]. intros rc' Hrc'.
  apply Hsub, list_elem_of_fmap in Hrc' as (rc & -> & Hrc).
  pose proof (all_windows_in_grid w rc Hw Hrc) as Hg.
  rewrite bget_mirror by auto using flip_in_grid.
  rewrite flip_involutive by done. by apply Hfull.
Qed.

(** X3: the win detector gives the same answer on a board and on its
    left-right mirror image. *)
Theorem winning_move_mirror (b : board) (piece : cell) :
  wf_board b = true ->
  winning_move (mirror b) piece = winning_move b piece.
Proof.
  intros H. pose proof (mirror_wf b H) as H'.
  destruct (winning_move_total b piece H) as [t Ht].
  destruct (winning_move_total (mirror b) piece H') as [t' Ht'].
  rewrite Ht, Ht'. f_equal.
  destruct t, t'; try reflexivity.
  - apply winning_move_has_four, has_four_mirror in Ht; [| done..].
    apply winning_move_has_four in Ht; [| done]. congruence.
  - apply winning_move_has_four, has_four_mirror in Ht'; [| done..].
    rewrite mirror_involutive in Ht'.
    apply winning_move_has_four in Ht'; [| done]. congruence.
Qed.

Lemma winning_move_mirror_witness :
  wf_board board_ai_won = true /\
  winning_move (mirror board_ai_won) AI_PIECE = winning_move board_ai_won AI_PIECE.
Proof. split; [reflexivity | apply winning_move_mirror; reflexivity]. Defined.

(** ** Board management: edge cases *)

(** X4: for a column of the grid, [get_next_open_row] returns the lowest
    row whose cell is empty, and returns [None] (it falls off the end of
    its loop) exactly when the column has no empty cell. *)
Theorem get_next_open_row_spec (b : board) (col : nat) :
  wf_board b = true -> col < COLUMN_COUNT ->
  (get_next_open_row b col = Ok None /\ column_full b col) \/
  (exists row, get_next_open_row b col = Ok (Some row) /\ row < ROW_COUNT /\
     cell_at b row col = Ok EMPTY /\
     forall r, r < row -> cell_at b r col <> Ok EMPTY).
Proof.
  intros H Hc. unfold get_next_open_row, range, column_full.
  pose proof (first_open_seq b col H Hc ROW_COUNT 0 ltac:(lia)) as Hf.
  destruct (first_open b col (seq 0 ROW_COUNT)) as [[row|]|e]; [| | done].
  - right. destruct Hf as (Hr & Hempty & Hmin). exists row.
    repeat split; [lia | by rewrite cell_at_wf, Hempty by (done || lia) |].
    intros r Hlt. rewrite cell_at_wf by (done || lia). intros [= Heq].
    apply (Hmin r); [lia | done].
  - left. split; [done |]. intros r Hr. apply Hf. lia.
Qed.

Lemma get_next_open_row_spec_witness :
  wf_board board_midgame = true /\ 3 < COLUMN_COUNT /\
  ((get_next_open_row board_midgame 3 = Ok None /\ column_full board_midgame 3) \/
   (exists row, get_next_open_row board_midgame 3 = Ok (Some row) /\
      row < ROW_COUNT /\ cell_at board_midgame row 3 = Ok EMPTY /\
      forall r, r < row -> cell_at board_midgame r 3 <> Ok EMPTY)).
Proof.
  split; [reflexivity |]. split; [vm_compute; lia |].
  apply get_next_open_row_spec; [reflexivity | vm_compute; lia].
Defined.

(** X5: on a board obeying gravity the two column tests agree:
    [is_valid_location] rejects a column exactly when [get_next_open_row]
    finds no row in it. *)
Theorem full_column_tests_agree (b : board) (col : nat) :
  wf_board b = true -> gravity b = true -> col < COLUMN_COUNT ->
  (is_valid_location b col = Ok false <-> get_next_open_row b col = Ok None).
Proof.
  intros H Hg Hc. rewrite is_valid_location_wf by done.
  unfold get_next_open_row, range.
  pose proof (first_open_seq b col H Hc ROW_COUNT 0 ltac:(lia)) as Hf.
  split.
  - intros [= He%cell_eqb_false].
    destruct (first_open b col (seq 0 ROW_COUNT)) as [[row|]|e]; [| done | done].
    destruct Hf as (Hr & Hempty & _). exfalso.
    apply (gravity_contiguous b col row (ROW_COUNT - 1)); try done;
      unfold ROW_COUNT in *; lia.
  - intros Hnone. rewrite Hnone in Hf. f_equal. apply cell_eqb_false.
    apply Hf. unfold ROW_COUNT. lia.
Qed.

Lemma full_column_tests_agree_witness :
  wf_board board_midgame = true /\ gravity board_midgame = true /\
  3 < COLUMN_COUNT /\
  (is_valid_location board_midgame 3 = Ok false
   <-> get_next_open_row board_midgame 3 = Ok None).
Proof.
  split; [reflexivity |]. split; [reflexivity |]. split; [vm_compute; lia |].
  apply full_column_tests_agree; [reflexivity | reflexivity | vm_compute; lia].
Defined.

Lemma idx_ge {A} (l : list A) (i : nat) : length l <= i -> idx l i = Err IndexError.
Proof. intros Hi. unfold idx. by rewrite lookup_ge_None_2. Qed.

(** X6: the helpers do not check their column: on a well-formed board a
    column index of 7 or more raises [IndexError] in [is_valid_location],
    in [get_next_open_row] and in [drop_piece] (at any row of the grid),
    and so does a row index of 6 or more in [drop_piece]. *)
Theorem column_out_of_range (b : board) (col : nat) :
  wf_board b = true -> COLUMN_COUNT <= col ->
  is_valid_location b col = Err IndexError /\
  get_next_open_row b col = Err IndexError /\
  (forall row piece, drop_piece b row col piece = Err IndexError) /\
  (forall row c piece, ROW_COUNT <= row -> drop_piece b row c piece = Err IndexError).
Proof.
  intros H Hc.
  assert (Hcell : forall r, r < ROW_COUNT -> cell_at b r col = Err IndexError).
  { intros r Hr. destruct (wf_board_lookup b r H Hr) as (rw & Hrw & Hlen).
    unfold cell_at. unfold idx at 1. rewrite Hrw. simpl. apply idx_ge. lia. }
  repeat split.
  - unfold is_valid_location. rewrite Hcell; [done | unfold ROW_COUNT; lia].
  - unfold get_next_open_row, range. simpl. rewrite Hcell; [done | unfold ROW_COUNT; lia].
  - intros row piece. unfold drop_piece.
    destruct (decide (row < ROW_COUNT)) as [Hr|Hr].
    + destruct (wf_board_lookup b row H Hr) as (rw & Hrw & Hlen).
      unfold idx at 1. rewrite Hrw. simpl. rewrite idx_ge; [done | lia].
    + rewrite idx_ge; [done |]. rewrite (wf_board_length b H). lia.
  - intros row c piece Hr. unfold drop_piece.
    rewrite idx_ge; [done |]. by rewrite (wf_board_length b H).
Qed.

Lemma column_out_of_range_witness :
  wf_board create_board = true /\ COLUMN_COUNT <= 7 /\
  is_valid_location create_board 7 = Err IndexError /\
  get_next_open_row create_board 7 = Err IndexError /\
  (forall row piece, drop_piece create_board row 7 piece = Err IndexError) /\
  (forall row c piece, ROW_COUNT <= row ->
     drop_piece create_board row c piece = Err IndexError).
Proof.
  split; [reflexivity |]. split; [vm_compute; lia |].
  apply column_out_of_range; [reflexivity | vm_compute; lia].
Defined.

(** X7: [drop_piece] writes into any cell of the grid, empty or not: the
    cell then holds the piece, every other cell is unchanged and the board
    keeps its shape. *)
Theorem drop_piece_overwrites (b : board) (row col : nat) (piece : cell) :
  wf_board b = true -> row < ROW_COUNT -> col < COLUMN_COUNT ->
  exists b', drop_piece b row col piece = Ok b' /\ wf_board b' = true /\
    cell_at b' row col = Ok piece /\
    forall r c, r < ROW_COUNT -> c < COLUMN_COUNT -> (r, c) <> (row, col) ->
      cell_at b' r c = cell_at b r c.
Proof.
  intros H Hr Hc.
  destruct (drop_piece_wf b row col piece H Hr Hc) as (b' & Hdrop & H' & Hget).
  exists b'. repeat split; try done.
  - rewrite cell_at_wf, Hget by done. by rewrite bool_decide_eq_true_2.
  - intros r c Hr' Hc' Hne. rewrite !cell_at_wf, Hget by done.
    rewrite bool_decide_eq_false_2; [done |]. intros [-> ->]. done.
Qed.

Lemma drop_piece_overwrites_witness :
  wf_board board_midgame = true /\ 0 < ROW_COUNT /\ 0 < COLUMN_COUNT /\
  exists b', drop_piece board_midgame 0 0 AI_PIECE = Ok b' /\ wf_board b' = true /\
    cell_at b' 0 0 = Ok AI_PIECE /\
    forall r c, r < ROW_COUNT -> c < COLUMN_COUNT -> (r, c) <> (0, 0) ->
      cell_at b' r c = cell_at board_midgame r c.
Proof.
  split; [reflexivity |]. split; [vm_compute; lia |]. split; [vm_compute; lia |].
  apply drop_piece_overwrites; [reflexivity | vm_compute; lia..].
Defined.

Lemma count_empty_le (b : board) : wf_board b = true -> count_empty b <= 42.
Proof.
  intros H. apply wf_board_Forall in H as [Hlen Hrows].
  assert (Hsum : count_empty b <= length b * COLUMN_COUNT).
  { clear Hlen. unfold count_empty, COLUMN_COUNT in *.
    induction Hrows as [|rw b Hrw Hrows IH]; cbn [map sum_list length]; [lia |].
    pose proof (count_le_length rw EMPTY). unfold id in *. lia. }
  rewrite Hlen in Hsum. unfold ROW_COUNT, COLUMN_COUNT in Hsum. lia.
Qed.

(** X8: a move (a player's piece dropped at the row [get_next_open_row]
    gives for a valid column) uses up exactly one of the at most 42 free
    cells; this is what bounds the depth of the search. *)
Theorem move_uses_one_cell (b : board) (col : nat) (piece : cell) :
  wf_board b = true -> is_valid_location b col = Ok true -> piece <> EMPTY ->
  exists row b',
    get_next_open_row b col = Ok (Some row) /\
    drop_piece b row col piece = Ok b' /\
    count_empty b' + 1 = count_empty b /\ count_empty b <= 42.
Proof.
  intros H Hv Hp. apply is_valid_location_Ok in Hv as [Hc Htop]; [| done].
  symmetry in Htop. apply cell_eqb_true in Htop.
  destruct (simulate_move b col piece H) as (row & b' & Hrow & Hdrop & _ & Hcount);
    [by apply elem_of_open_columns | done |].
  exists row, b'. repeat split; try done. by apply count_empty_le.
Qed.

Lemma move_uses_one_cell_witness :
  wf_board board_midgame = true /\ is_valid_location board_midgame 4 = Ok true /\
  PLAYER_PIECE <> EMPTY /\
  exists row b',
    get_next_open_row board_midgame 4 = Ok (Some row) /\
    drop_piece board_midgame row 4 PLAYER_PIECE = Ok b' /\
    count_empty b' + 1 = count_empty board_midgame /\
    count_empty board_midgame <= 42.
Proof.
  split; [reflexivity |]. split; [reflexivity |]. split; [discriminate |].
  apply move_uses_one_cell; [reflexivity | reflexivity | discriminate].
Defined.

(** X9: writing a piece never completes a line of a different piece: if
    [winning_move] was [False] for [other] before the write, it still is
    afterwards. *)
Theorem drop_piece_no_win_for_other (b b' : board) (row col : nat)
    (piece other : cell) :
  wf_board b = true -> other <> piece ->
  drop_piece b row col piece = Ok b' ->
  winning_move b other = Ok false -> winning_move b' other = Ok false.
Proof.
  intros H Hne Hdrop Hno.
  assert (Hr : row < ROW_COUNT).
  { destruct (decide (row < ROW_COUNT)); [done |].
    unfold drop_piece in Hdrop. rewrite idx_ge in Hdrop; [done |].
    rewrite (wf_board_length b H). lia. }
  assert (Hc : col < COLUMN_COUNT).
  { destruct (decide (col < COLUMN_COUNT)); [done |].
    destruct (wf_board_lookup b row H Hr) as (rw & Hrw & Hlen).
    unfold drop_piece in Hdrop. unfold idx at 1 in Hdrop. rewrite Hrw in Hdrop.
    simpl in Hdrop. rewrite idx_ge in Hdrop; [done | lia]. }
  destruct (drop_piece_wf b row col piece H Hr Hc) as (b2 & Hdrop2 & H' & Hget).
  assert (b2 = b') as -> by congruence.
  destruct (winning_move_total b' other H') as [[|] Ht]; [| done].
  exfalso. apply winning_move_has_four in Ht as (w & Hw & Hfull); [| done].
  assert (Hold : has_four b other).
  { exists w. split; [done |]. intros rc Hrc. specialize (Hfull rc Hrc).
    rewrite Hget in Hfull. case_bool_decide; [congruence | done]. }
  apply winning_move_has_four in Hold; [| done]. congruence.
Qed.

Lemma drop_piece_no_win_for_other_witness :
  wf_board board_midgame = true /\ PLAYER_PIECE <> AI_PIECE /\
  drop_piece board_midgame 1 4 AI_PIECE
  = Ok (<[1 := [EMPTY; PLAYER_PIECE; PLAYER_PIECE; AI_PIECE; AI_PIECE; EMPTY; EMPTY]]>
          board_midgame) /\
  winning_move board_midgame PLAYER_PIECE = Ok false /\
  winning_move
    (<[1 := [EMPTY; PLAYER_PIECE; PLAYER_PIECE; AI_PIECE; AI_PIECE; EMPTY; EMPTY]]>
       board_midgame) PLAYER_PIECE = Ok false.
Proof.
  split; [reflexivity |]. split; [discriminate |]. split; [reflexivity |].
  split; [reflexivity |].
  apply (drop_piece_no_win_for_other board_midgame _ 1 4 AI_PIECE PLAYER_PIECE);
    [reflexivity | discriminate | reflexivity | reflexivity].
Defined.

(** ** The heuristic: values and bounds *)

(** X10: for a player's piece, a 4-cell window is worth exactly one of 100
    (four of the piece), 5 (three and one empty), 2 (two and two empty),
    -4 (three of the opposing piece and one empty) or 0 (anything else);
    the penalty never adds to a positive pattern. *)
Theorem evaluate_window_values (window : list cell) (piece : cell) :
  length window = WINDOW_LENGTH -> piece <> EMPTY ->
  (count window piece = 4 /\ evaluate_window window piece = 100%Z) \/
  (count window piece = 3 /\ count window EMPTY = 1 /\
     evaluate_window window piece = 5%Z) \/
  (count window piece = 2 /\ count window EMPTY = 2 /\
     evaluate_window window piece = 2%Z) \/
  (count window (opposing piece) = 3 /\ count window EMPTY = 1 /\
     evaluate_window window piece = (-4)%Z) \/
  (count window piece <> 4 /\
   ~ (count window piece = 3 /\ count window EMPTY = 1) /\
   ~ (count window piece = 2 /\ count window EMPTY = 2) /\
   ~ (count window (opposing piece) = 3 /\ count window EMPTY = 1) /\
   evaluate_window window piece = 0%Z).
Proof.
  intros Hlen Hp. unfold WINDOW_LENGTH in Hlen.
  pose proof (count_two_le_length window _ _ (opposing_neq piece)) as Hopp.
  pose proof (count_two_le_length window piece EMPTY Hp) as Hemp.
  unfold evaluate_window.
  replace (if cell_eqb piece PLAYER_PIECE then AI_PIECE else PLAYER_PIECE)
    with (opposing piece) by (by destruct piece).
  repeat match goal with
         | |- context [?a =? ?b] => destruct (Nat.eqb_spec a b)
         end; simpl; lia.
Qed.

Lemma evaluate_window_values_witness :
  length [PLAYER_PIECE; PLAYER_PIECE; EMPTY; PLAYER_PIECE] = WINDOW_LENGTH /\
  AI_PIECE <> EMPTY /\
  ((count [PLAYER_PIECE; PLAYER_PIECE; EMPTY; PLAYER_PIECE] AI_PIECE = 4 /\
    evaluate_window [PLAYER_PIECE; PLAYER_PIECE; EMPTY; PLAYER_PIECE] AI_PIECE = 100%Z) \/
   (count [PLAYER_PIECE; PLAYER_PIECE; EMPTY; PLAYER_PIECE] AI_PIECE = 3 /\
    count [PLAYER_PIECE; PLAYER_PIECE; EMPTY; PLAYER_PIECE] EMPTY = 1 /\
    evaluate_window [PLAYER_PIECE; PLAYER_PIECE; EMPTY; PLAYER_PIECE] AI_PIECE = 5%Z) \/
   (count [PLAYER_PIECE; PLAYER_PIECE; EMPTY; PLAYER_PIECE] AI_PIECE = 2 /\
    count [PLAYER_PIECE; PLAYER_PIECE; EMPTY; PLAYER_PIECE] EMPTY = 2 /\
    evaluate_window [PLAYER_PIECE; PLAYER_PIECE; EMPTY; PLAYER_PIECE] AI_PIECE = 2%Z) \/
   (count [PLAYER_PIECE; PLAYER_PIECE; EMPTY; PLAYER_PIECE] (opposing AI_PIECE) = 3 /\
    count [PLAYER_PIECE; PLAYER_PIECE; EMPTY; PLAYER_PIECE] EMPTY = 1 /\
    evaluate_window [PLAYER_PIECE; PLAYER_PIECE; EMPTY; PLAYER_PIECE] AI_PIECE
    = (-4)%Z) \/
   (count [PLAYER_PIECE; PLAYER_PIECE; EMPTY; PLAYER_PIECE] AI_PIECE <> 4 /\
    ~ (count [PLAYER_PIECE; PLAYER_PIECE; EMPTY; PLAYER_PIECE] AI_PIECE = 3 /\
       count [PLAYER_PIECE; PLAYER_PIECE; EMPTY; PLAYER_PIECE] EMPTY = 1) /\
    ~ (count [PLAYER_PIECE; PLAYER_PIECE; EMPTY; PLAYER_PIECE] AI_PIECE = 2 /\
       count [PLAYER_PIECE; PLAYER_PIECE; EMPTY; PLAYER_PIECE] EMPTY = 2) /\
    ~ (count [PLAYER_PIECE; PLAYER_PIECE; EMPTY; PLAYER_PIECE] (opposing AI_PIECE) = 3 /\
       count [PLAYER_PIECE; PLAYER_PIECE; EMPTY; PLAYER_PIECE] EMPTY = 1) /\
    evaluate_window [PLAYER_PIECE; PLAYER_PIECE; EMPTY; PLAYER_PIECE] AI_PIECE = 0%Z)).
Proof.
  split; [reflexivity |]. split; [discriminate |].
  apply evaluate_window_values; [reflexivity | discriminate].
Defined.

(** X11: on a well-formed board [score_position] never raises and its
    value lies between -276 (69 windows at -4) and 6918 (69 windows at
    100, plus 3 for each of the 6 centre cells). *)
Theorem score_position_bounds (b : board) (piece : cell) :
  wf_board b = true ->
  exists s, score_position b piece = Ok s /\ (-276 <= s <= 6918)%Z.
Proof.
  intros H. exists (score_spec b piece). split; [by apply score_position_wf |].
  pose proof (score_spec_bounds b piece). lia.
Qed.

Lemma score_position_bounds_witness :
  wf_board board_midgame = true /\
  exists s, score_position board_midgame PLAYER_PIECE = Ok s /\ (-276 <= s <= 6918)%Z.
Proof. split; [reflexivity | apply score_position_bounds; reflexivity]. Defined.

(** ** Minimax: the base case in general *)

(** X12: on a terminal board, whatever the depth and the flag, [minimax]
    returns no column, draws no random number, and scores
    100000000000000 when the computer has four in a row, otherwise
    -10000000000000 when the player has, otherwise (no valid move left) 0. *)
Theorem minimax_terminal (b : board) (fuel : nat) (depth : Z) (m : bool) (g : rng) :
  wf_board b = true -> is_terminal_node b = Ok true ->
  exists s, minimax (S fuel) b depth m g = (Ok (None, Fin s), g) /\
    ((winning_move b AI_PIECE = Ok true /\ s = 100000000000000%Z) \/
     (winning_move b AI_PIECE = Ok false /\ winning_move b PLAYER_PIECE = Ok true /\
        s = (-10000000000000)%Z) \/
     (winning_move b AI_PIECE = Ok false /\ winning_move b PLAYER_PIECE = Ok false /\
        get_valid_locations b = Ok [] /\ s = 0%Z)).
Proof.
  intros H Ht. rewrite is_terminal_node_wf in Ht by done. injection Ht as Ht.
  eexists. split; [by apply minimax_terminal_scores |].
  rewrite !winning_move_wins, get_valid_locations_open by done.
  unfold terminal in Ht.
  destruct (wins b AI_PIECE); [by left |]. right.
  destruct (wins b PLAYER_PIECE); [by left |]. right.
  simpl in Ht. apply Nat.eqb_eq, length_zero_iff_nil in Ht. by rewrite Ht.
Qed.

Lemma minimax_terminal_witness :
  wf_board board_full_draw = true /\ is_terminal_node board_full_draw = Ok true /\
  exists s, minimax 1 board_full_draw 4 true draws_up = (Ok (None, Fin s), draws_up) /\
    ((winning_move board_full_draw AI_PIECE = Ok true /\ s = 100000000000000%Z) \/
     (winning_move board_full_draw AI_PIECE = Ok false /\
        winning_move board_full_draw PLAYER_PIECE = Ok true /\
        s = (-10000000000000)%Z) \/
     (winning_move board_full_draw AI_PIECE = Ok false /\
        winning_move board_full_draw PLAYER_PIECE = Ok false /\
        get_valid_locations board_full_draw = Ok [] /\ s = 0%Z)).
Proof.
  split; [reflexivity |]. split; [reflexivity |].
  apply minimax_terminal; reflexivity.
Defined.

(** ** Minimax: the recursive case *)

Lemma child_score_unique (rec : board -> Z -> bool -> M result) (b : board)
    (d : Z) (piece : cell) (m' : bool) (c : nat) (s1 s2 : Z) :
  child_score rec b d piece m' c s1 -> child_score rec b d piece m' c s2 -> s1 = s2.
Proof.
  intros (row1 & b1 & col1 & Hrow1 & Hdrop1 & Hrun1)
         (row2 & b2 & col2 & Hrow2 & Hdrop2 & Hrun2).
  assert (row1 = row2) as -> by congruence.
  assert (b1 = b2) as -> by congruence.
  destruct (Hrun1 draws_zero) as [g1 Hg1]. destruct (Hrun2 draws_zero) as [g2 Hg2].
  congruence.
Qed.

Lemma ext_ltb_trans_r (value : ext) (s0 s1 : Z) :
  ext_ltb value (Fin s0) = true -> (s0 < s1)%Z -> ext_ltb value (Fin s1) = true.
Proof. destruct value; simpl; try done. rewrite !Z.ltb_lt. lia. Qed.

Lemma ext_ltb_between_r (value : ext) (s0 s1 : Z) :
  ext_ltb value (Fin s0) = false -> ext_ltb value (Fin s1) = true -> (s0 < s1)%Z.
Proof. destruct value; simpl; try done. rewrite Z.ltb_lt, Z.ltb_ge. lia. Qed.

Lemma ext_ltb_trans_l (value : ext) (s0 s1 : Z) :
  ext_ltb (Fin s0) value = true -> (s1 < s0)%Z -> ext_ltb (Fin s1) value = true.
Proof. destruct value; simpl; try done. rewrite !Z.ltb_lt. lia. Qed.

Lemma ext_ltb_between_l (value : ext) (s0 s1 : Z) :
  ext_ltb (Fin s0) value = false -> ext_ltb (Fin s1) value = true -> (s1 < s0)%Z.
Proof. destruct value; simpl; try done. rewrite Z.ltb_lt, Z.ltb_ge. lia. Qed.

Lemma max_loop_step (rec : board -> Z -> bool -> M result) (n : nat) (b : board)
    (d : Z) (c : nat) (cs : list nat) :
  wf_board b = true -> count_empty b <= n -> answers rec n ->
  c ∈ open_columns b ->
  exists s, child_score rec b d AI_PIECE false c s /\
    forall value column g, exists g',
      max_loop rec b d (c :: cs) value column g
      = (if ext_ltb value (Fin s)
         then max_loop rec b d cs (Fin s) (Some c)
         else max_loop rec b d cs value column) g'.
Proof.
  intros H Hn Hrec Hc.
  destruct (simulate_move b c AI_PIECE H Hc ltac:(done))
    as (row & b' & Hrow & Hdrop & H' & Hcount).
  destruct (Hrec b' (d - 1)%Z false H' ltac:(lia)) as (col & s & Hs).
  exists s. split; [by exists row, b', col |].
  intros value column g. destruct (Hs g) as [g' Hg'].
  exists g'. simpl. unfold bind_m, lift. by rewrite Hrow, Hdrop, Hg'.
Qed.

Lemma min_loop_step (rec : board -> Z -> bool -> M result) (n : nat) (b : board)
    (d : Z) (c : nat) (cs : list nat) :
  wf_board b = true -> count_empty b <= n -> answers rec n ->
  c ∈ open_columns b ->
  exists s, child_score rec b d PLAYER_PIECE true c s /\
    forall value column g, exists g',
      min_loop rec b d (c :: cs) value column g
      = (if ext_ltb (Fin s) value
         then min_loop rec b d cs (Fin s) (Some c)
         else min_loop rec b d cs value column) g'.
Proof.
  intros H Hn Hrec Hc.
  destruct (simulate_move b c PLAYER_PIECE H Hc ltac:(done))
    as (row & b' & Hrow & Hdrop & H' & Hcount).
  destruct (Hrec b' (d - 1)%Z true H' ltac:(lia)) as (col & s & Hs).
  exists s. split; [by exists row, b', col |].
  intros value column g. destruct (Hs g) as [g' Hg'].
  exists g'. simpl. unfold bind_m, lift. by rewrite Hrow, Hdrop, Hg'.
Qed.

(** What the maximizing loop leaves in [column] and [value]: either the
    incumbent survived, or the first column whose score beats everything
    before it and is not beaten by anything after it. *)
Lemma max_loop_best (rec : board -> Z -> bool -> M result) (n : nat) (b : board)
    (d : Z) :
  wf_board b = true -> count_empty b <= n -> answers rec n ->
  forall cs, (forall c, c ∈ cs -> c ∈ open_columns b) ->
  forall value column, exists col v,
    (forall g, exists g', max_loop rec b d cs value column g = (Ok (col, v), g')) /\
    ((col = column /\ v = value /\
      forall c s, c ∈ cs -> child_score rec b d AI_PIECE false c s ->
                  ext_ltb value (Fin s) = false) \/
     (exists pre c post s,
        cs = pre ++ c :: post /\ col = Some c /\ v = Fin s /\
        child_score rec b d AI_PIECE false c s /\
        ext_ltb value (Fin s) = true /\
        (forall c' s', c' ∈ pre -> child_score rec b d AI_PIECE false c' s' ->
                       (s' < s)%Z) /\
        (forall c' s', c' ∈ post -> child_score rec b d AI_PIECE false c' s' ->
                       (s' <= s)%Z))).
Proof.
  intros H Hn Hrec. induction cs as [|c cs IH]; intros Hcs value column.
  - exists column, value. split; [intros g; by exists g |]. left.
    repeat split. intros c s Hc. by apply elem_of_nil in Hc.
  - destruct (max_loop_step rec n b d c cs H Hn Hrec) as (s0 & Hchild & Hstep);
      [apply Hcs; by left |].
    assert (Hcs' : forall c', c' ∈ cs -> c' ∈ open_columns b)
      by (intros; apply Hcs; by right).
    destruct (ext_ltb value (Fin s0)) eqn:Hlt.
    + destruct (IH Hcs' (Fin s0) (Some c)) as (col & v & Hrun & Hres).
      exists col, v. split.
      { intros g. destruct (Hstep value column g) as [g1 Hg1].
        rewrite Hg1, Hlt. apply Hrun. }
      right. destruct Hres as [(-> & -> & Hrest) |
        (pre & c1 & post & s1 & -> & -> & -> & Hc1 & Hlt1 & Hpre & Hpost)].
      * exists [], c, cs, s0. repeat split; try done.
        -- intros c' s' Hin. by apply elem_of_nil in Hin.
        -- intros c' s' Hin Hc'. specialize (Hrest c' s' Hin Hc').
           simpl in Hrest. apply Z.ltb_ge in Hrest. lia.
      * simpl in Hlt1. apply Z.ltb_lt in Hlt1.
        exists (c :: pre), c1, post, s1. repeat split; try done.
        -- by eapply ext_ltb_trans_r.
        -- intros c' s' [-> | Hin]%elem_of_cons Hc'.
           ++ by rewrite (child_score_unique _ _ _ _ _ _ _ _ Hc' Hchild).
           ++ by eapply Hpre.
    + destruct (IH Hcs' value column) as (col & v & Hrun & Hres).
      exists col, v. split.
      { intros g. destruct (Hstep value column g) as [g1 Hg1].
        rewrite Hg1, Hlt. apply Hrun. }
      destruct Hres as [(-> & -> & Hrest) |
        (pre & c1 & post & s1 & -> & -> & -> & Hc1 & Hlt1 & Hpre & Hpost)].
      * left. repeat split. intros c' s' [-> | Hin]%elem_of_cons Hc'.
        -- by rewrite (child_score_unique _ _ _ _ _ _ _ _ Hc' Hchild).
        -- by eapply Hrest.
      * right. exists (c :: pre), c1, post, s1. repeat split; try done.
        intros c' s' [-> | Hin]%elem_of_cons Hc'.
        -- rewrite (child_score_unique _ _ _ _ _ _ _ _ Hc' Hchild).
           by eapply ext_ltb_between_r.
        -- by eapply Hpre.
Qed.

Lemma min_loop_best (rec : board -> Z -> bool -> M result) (n : nat) (b : board)
    (d : Z) :
  wf_board b = true -> count_empty b <= n -> answers rec n ->
  forall cs, (forall c, c ∈ cs -> c ∈ open_columns b) ->
  forall value column, exists col v,
    (forall g, exists g', min_loop rec b d cs value column g = (Ok (col, v), g')) /\
    ((col = column /\ v = value /\
      forall c s, c ∈ cs -> child_score rec b d PLAYER_PIECE true c s ->
                  ext_ltb (Fin s) value = false) \/
     (exists pre c post s,
        cs = pre ++ c :: post /\ col = Some c /\ v = Fin s /\
        child_score rec b d PLAYER_PIECE true c s /\
        ext_ltb (Fin s) value = true /\
        (forall c' s', c' ∈ pre -> child_score rec b d PLAYER_PIECE true c' s' ->
                       (s < s')%Z) /\
        (forall c' s', c' ∈ post -> child_score rec b d PLAYER_PIECE true c' s' ->
                       (s <= s')%Z))).
Proof.
  intros H Hn Hrec. induction cs as [|c cs IH]; intros Hcs value column.
  - exists column, value. split; [intros g; by exists g |]. left.
    repeat split. intros c s Hc. by apply elem_of_nil in Hc.
  - destruct (min_loop_step rec n b d c cs H Hn Hrec) as (s0 & Hchild & Hstep);
      [apply Hcs; by left |].
    assert (Hcs' : forall c', c' ∈ cs -> c' ∈ open_columns b)
      by (intros; apply Hcs; by right).
    destruct (ext_ltb (Fin s0) value) eqn:Hlt.
    + destruct (IH Hcs' (Fin s0) (Some c)) as (col & v & Hrun & Hres).
      exists col, v. split.
      { intros g. destruct (Hstep value column g) as [g1 Hg1].
        rewrite Hg1, Hlt. apply Hrun. }
      right. destruct Hres as [(-> & -> & Hrest) |
        (pre & c1 & post & s1 & -> & -> & -> & Hc1 & Hlt1 & Hpre & Hpost)].
      * exists [], c, cs, s0. repeat split; try done.
        -- intros c' s' Hin. by apply elem_of_nil in Hin.
        -- intros c' s' Hin Hc'. specialize (Hrest c' s' Hin Hc').
           simpl in Hrest. apply Z.ltb_ge in Hrest. lia.
      * simpl in Hlt1. apply Z.ltb_lt in Hlt1.
        exists (c :: pre), c1, post, s1. repeat split; try done.
        -- by eapply ext_ltb_trans_l.
        -- intros c' s' [-> | Hin]%elem_of_cons Hc'.
           ++ by rewrite (child_score_unique _ _ _ _ _ _ _ _ Hc' Hchild).
           ++ by eapply Hpre.
    + destruct (IH Hcs' value column) as (col & v & Hrun & Hres).
      exists col, v. split.
      { intros g. destruct (Hstep value column g) as [g1 Hg1].
        rewrite Hg1, Hlt. apply Hrun. }
      destruct Hres as [(-> & -> & Hrest) |
        (pre & c1 & post & s1 & -> & -> & -> & Hc1 & Hlt1 & Hpre & Hpost)].
      * left. repeat split. intros c' s' [-> | Hin]%elem_of_cons Hc'.
        -- by rewrite (child_score_unique _ _ _ _ _ _ _ _ Hc' Hchild).
        -- by eapply Hrest.
      * right. exists (c :: pre), c1, post, s1. repeat split; try done.
        intros c' s' [-> | Hin]%elem_of_cons Hc'.
        -- rewrite (child_score_unique _ _ _ _ _ _ _ _ Hc' Hchild).
           by eapply ext_ltb_between_l.
        -- by eapply Hpre.
Qed.

Lemma answers_minimax (fuel : nat) : answers (minimax fuel) fuel.
Proof.
  intros b d m H Hlt. destruct (minimax_answers fuel b d m H Hlt) as (col & s & Hrun & _).
  eauto.
Qed.

Lemma open_columns_sorted (b : board) : StronglySorted lt (open_columns b).
Proof. apply StronglySorted_filter, StronglySorted_seq. Qed.

Lemma sorted_around (pre post : list nat) (c : nat) :
  StronglySorted lt (pre ++ c :: post) ->
  (forall c', c' ∈ pre -> c' < c) /\ (forall c', c' ∈ post -> c < c').
Proof.
  intros Hs. split.
  - intros c' Hin. eapply StronglySorted_app_1_elem_of; [done.. |]. by left.
  - apply StronglySorted_app_1_r, StronglySorted_cons in Hs as [Hall _].
    intros c' Hin. rewrite Forall_forall in Hall. by apply Hall.
Qed.

(** The maximizing node: first best column and its score. *)
Lemma max_node_best (fuel : nat) (b : board) (depth : Z) :
  wf_board b = true -> count_empty b <= fuel ->
  depth <> 0%Z -> is_terminal_node b = Ok false ->
  exists vl c s,
    get_valid_locations b = Ok vl /\ c ∈ vl /\
    (forall g, exists g', minimax (S fuel) b depth true g = (Ok (Some c, Fin s), g')) /\
    child_score (minimax fuel) b depth AI_PIECE false c s /\
    forall c' s', c' ∈ vl -> child_score (minimax fuel) b depth AI_PIECE false c' s' ->
      (s' <= s)%Z /\ (c' < c -> (s' < s)%Z).
Proof.
  intros H Hn Hd Ht. rewrite is_terminal_node_wf in Ht by done. injection Ht as Ht.
  pose proof (terminal_false_open b Ht) as Hne.
  pose proof (open_columns_sorted b) as Hsort.
  pose proof (answers_minimax fuel) as Hrec.
  assert (Hmem : forall c, c ∈ open_columns b -> c ∈ open_columns b) by done.
  assert (Hstart : forall g, minimax (S fuel) b depth true g
            = bind_m (random_choice (open_columns b)) (fun column =>
                max_loop (minimax fuel) b depth (open_columns b) NegInf (Some column)) g).
  { intros g. rewrite minimax_step by done. rewrite Ht.
    by destruct (Z.eqb_spec depth 0). }
  rewrite get_valid_locations_open by done.
  destruct (open_columns b) as [|c0 cs] eqn:Hopen; [done |].
  assert (Hc0 : c0 ∈ open_columns b) by (rewrite Hopen; by left).
  assert (Hcs : forall c', c' ∈ cs -> c' ∈ open_columns b)
    by (intros; rewrite Hopen; by right).
  destruct (max_loop_step (minimax fuel) fuel b depth c0 cs H Hn Hrec Hc0)
    as (s0 & Hchild0 & Hstep).
  destruct (max_loop_best (minimax fuel) fuel b depth H Hn Hrec cs Hcs
              (Fin s0) (Some c0)) as (col & v & Hrun & Hres).
  assert (Hfull : forall g, exists g',
            minimax (S fuel) b depth true g = (Ok (col, v), g')).
  { intros g. rewrite Hstart.
    destruct (random_choice_cons c0 cs g) as (x & g1 & Hx).
    unfold bind_m. rewrite Hx.
    destruct (Hstep NegInf (Some x) g1) as [g2 Hg2]. rewrite Hg2.
    simpl ext_ltb. cbv iota. apply Hrun. }
  apply StronglySorted_cons in Hsort as [Hmin Hsort]. rewrite Forall_forall in Hmin.
  destruct Hres as [(-> & -> & Hrest) |
    (pre & c1 & post & s1 & -> & -> & -> & Hc1 & Hlt1 & Hpre & Hpost)].
  - exists (c0 :: cs), c0, s0. split_and!; [done | by left | done | done |].
    intros c' s' Hin Hch. apply elem_of_cons in Hin as [-> | Hin].
    + rewrite (child_score_unique _ _ _ _ _ _ _ _ Hch Hchild0). lia.
    + specialize (Hrest c' s' Hin Hch). simpl in Hrest.
      apply Z.ltb_ge in Hrest. specialize (Hmin c' Hin). lia.
  - destruct (sorted_around pre post c1 Hsort) as [Hbefore Hafter].
    simpl in Hlt1. apply Z.ltb_lt in Hlt1.
    exists (c0 :: pre ++ c1 :: post), c1, s1. split_and!; [done | | done | done |].
    { right. apply elem_of_app. right. by left. }
    intros c' s' Hin Hch. apply elem_of_cons in Hin as [-> | Hin].
    + rewrite (child_score_unique _ _ _ _ _ _ _ _ Hch Hchild0). lia.
    + apply elem_of_app in Hin as [Hin | [-> | Hin]%elem_of_cons].
      * specialize (Hpre c' s' Hin Hch). lia.
      * rewrite (child_score_unique _ _ _ _ _ _ _ _ Hch Hc1). lia.
      * specialize (Hpost c' s' Hin Hch). specialize (Hafter c' Hin). lia.
Qed.

(** X13: at a maximizing node that is not a base case, [minimax] returns a
    valid column and the score of the board reached by playing the
    computer's piece there, evaluated one level deeper for the minimizing
    side.  No valid column scores more, and every valid column to its left
    scores strictly less: ties go to the leftmost column. *)
Theorem minimax_max_node (fuel : nat) (b : board) (depth : Z) :
  wf_board b = true -> count_empty b <= fuel ->
  depth <> 0%Z -> is_terminal_node b = Ok false ->
  exists vl c s,
    get_valid_locations b = Ok vl /\ c ∈ vl /\
    (forall g, exists g', minimax (S fuel) b depth true g = (Ok (Some c, Fin s), g')) /\
    child_score (minimax fuel) b depth AI_PIECE false c s /\
    forall c' s', c' ∈ vl -> child_score (minimax fuel) b depth AI_PIECE false c' s' ->
      (s' <= s)%Z /\ (c' < c -> (s' < s)%Z).
Proof. apply max_node_best. Qed.

Lemma minimax_max_node_witness :
  wf_board board_midgame = true /\ count_empty board_midgame <= 29 /\
  2%Z <> 0%Z /\ is_terminal_node board_midgame = Ok false /\
  exists vl c s,
    get_valid_locations board_midgame = Ok vl /\ c ∈ vl /\
    (forall g, exists g',
       minimax 30 board_midgame 2 true g = (Ok (Some c, Fin s), g')) /\
    child_score (minimax 29) board_midgame 2 AI_PIECE false c s /\
    forall c' s', c' ∈ vl ->
      child_score (minimax 29) board_midgame 2 AI_PIECE false c' s' ->
      (s' <= s)%Z /\ (c' < c -> (s' < s)%Z).
Proof.
  split; [reflexivity |]. split; [vm_compute; lia |]. split; [lia |].
  split; [reflexivity |].
  apply minimax_max_node; [reflexivity | vm_compute; lia | lia | reflexivity].
Defined.

(** The minimizing node: first best column and its score. *)
Lemma min_node_best (fuel : nat) (b : board) (depth : Z) :
  wf_board b = true -> count_empty b <= fuel ->
  depth <> 0%Z -> is_terminal_node b = Ok false ->
  exists vl c s,
    get_valid_locations b = Ok vl /\ c ∈ vl /\
    (forall g, exists g', minimax (S fuel) b depth false g = (Ok (Some c, Fin s), g')) /\
    child_score (minimax fuel) b depth PLAYER_PIECE true c s /\
    forall c' s', c' ∈ vl -> child_score (minimax fuel) b depth PLAYER_PIECE true c' s' ->
      (s <= s')%Z /\ (c' < c -> (s < s')%Z).
Proof.
  intros H Hn Hd Ht. rewrite is_terminal_node_wf in Ht by done. injection Ht as Ht.
  pose proof (terminal_false_open b Ht) as Hne.
  pose proof (open_columns_sorted b) as Hsort.
  pose proof (answers_minimax fuel) as Hrec.
  assert (Hstart : forall g, minimax (S fuel) b depth false g
            = bind_m (random_choice (open_columns b)) (fun column =>
                min_loop (minimax fuel) b depth (open_columns b) PosInf (Some column)) g).
  { intros g. rewrite minimax_step by done. rewrite Ht.
    by destruct (Z.eqb_spec depth 0). }
  rewrite get_valid_locations_open by done.
  destruct (open_columns b) as [|c0 cs] eqn:Hopen; [done |].
  assert (Hc0 : c0 ∈ open_columns b) by (rewrite Hopen; by left).
  assert (Hcs : forall c', c' ∈ cs -> c' ∈ open_columns b)
    by (intros; rewrite Hopen; by right).
  destruct (min_loop_step (minimax fuel) fuel b depth c0 cs H Hn Hrec Hc0)
    as (s0 & Hchild0 & Hstep).
  destruct (min_loop_best (minimax fuel) fuel b depth H Hn Hrec cs Hcs
              (Fin s0) (Some c0)) as (col & v & Hrun & Hres).
  assert (Hfull : forall g, exists g',
            minimax (S fuel) b depth false g = (Ok (col, v), g')).
  { intros g. rewrite Hstart.
    destruct (random_choice_cons c0 cs g) as (x & g1 & Hx).
    unfold bind_m. rewrite Hx.
    destruct (Hstep PosInf (Some x) g1) as [g2 Hg2]. rewrite Hg2.
    simpl ext_ltb. cbv iota. apply Hrun. }
  apply StronglySorted_cons in Hsort as [Hmin Hsort]. rewrite Forall_forall in Hmin.
  destruct Hres as [(-> & -> & Hrest) |
    (pre & c1 & post & s1 & -> & -> & -> & Hc1 & Hlt1 & Hpre & Hpost)].
  - exists (c0 :: cs), c0, s0. split_and!; [done | by left | done | done |].
    intros c' s' Hin Hch. apply elem_of_cons in Hin as [-> | Hin].
    + rewrite (child_score_unique _ _ _ _ _ _ _ _ Hch Hchild0). lia.
    + specialize (Hrest c' s' Hin Hch). simpl in Hrest.
      apply Z.ltb_ge in Hrest. specialize (Hmin c' Hin). lia.
  - destruct (sorted_around pre post c1 Hsort) as [Hbefore Hafter].
    simpl in Hlt1. apply Z.ltb_lt in Hlt1.
    exists (c0 :: pre ++ c1 :: post), c1, s1. split_and!; [done | | done | done |].
    { right. apply elem_of_app. right. by left. }
    intros c' s' Hin Hch. apply elem_of_cons in Hin as [-> | Hin].
    + rewrite (child_score_unique _ _ _ _ _ _ _ _ Hch Hchild0). lia.
    + apply elem_of_app in Hin as [Hin | [-> | Hin]%elem_of_cons].
      * specialize (Hpre c' s' Hin Hch). lia.
      * rewrite (child_score_unique _ _ _ _ _ _ _ _ Hch Hc1). lia.
      * specialize (Hpost c' s' Hin Hch). specialize (Hafter c' Hin). lia.
Qed.

(** X14: at a minimizing node that is not a base case, [minimax] returns a
    valid column and the score of the board reached by playing the
    player's piece there, evaluated one level deeper for the maximizing
    side.  No valid column scores less, and every valid column to its left
    scores strictly more. *)
Theorem minimax_min_node (fuel : nat) (b : board) (depth : Z) :
  wf_board b = true -> count_empty b <= fuel ->
  depth <> 0%Z -> is_terminal_node b = Ok false ->
  exists vl c s,
    get_valid_locations b = Ok vl /\ c ∈ vl /\
    (forall g, exists g', minimax (S fuel) b depth false g = (Ok (Some c, Fin s), g')) /\
    child_score (minimax fuel) b depth PLAYER_PIECE true c s /\
    forall c' s', c' ∈ vl -> child_score (minimax fuel) b depth PLAYER_PIECE true c' s' ->
      (s <= s')%Z /\ (c' < c -> (s < s')%Z).
Proof. apply min_node_best. Qed.

Lemma minimax_min_node_witness :
  wf_board board_midgame = true /\ count_empty board_midgame <= 29 /\
  2%Z <> 0%Z /\ is_terminal_node board_midgame = Ok false /\
  exists vl c s,
    get_valid_locations board_midgame = Ok vl /\ c ∈ vl /\
    (forall g, exists g',
       minimax 30 board_midgame 2 false g = (Ok (Some c, Fin s), g')) /\
    child_score (minimax 29) board_midgame 2 PLAYER_PIECE true c s /\
    forall c' s', c' ∈ vl ->
      child_score (minimax 29) board_midgame 2 PLAYER_PIECE true c' s' ->
      (s <= s')%Z /\ (c' < c -> (s < s')%Z).
Proof.
  split; [reflexivity |]. split; [vm_compute; lia |]. split; [lia |].
  split; [reflexivity |].
  apply minimax_min_node; [reflexivity | vm_compute; lia | lia | reflexivity].
Defined.

(** ** Minimax: range of the score, and taking a win *)

Lemma child_score_board (rec : board -> Z -> bool -> M result) (b : board)
    (d : Z) (piece : cell) (m' : bool) (c : nat) (s : Z) :
  wf_board b = true -> c ∈ open_columns b -> piece <> EMPTY ->
  child_score rec b d piece m' c s ->
  exists b' col, wf_board b' = true /\ count_empty b' + 1 = count_empty b /\
    forall g, exists g', rec b' (d - 1)%Z m' g = (Ok (col, Fin s), g').
Proof.
  intros H Hc Hp (row & b' & col & Hrow & Hdrop & Hrun).
  destruct (simulate_move b c piece H Hc Hp) as (row2 & b2 & Hrow2 & Hdrop2 & H' & Hcount).
  assert (row2 = row) as -> by congruence. simpl in Hdrop2.
  assert (b2 = b') as -> by congruence.
  by exists b', col.
Qed.

Lemma minimax_score_range (fuel : nat) (b : board) (depth : Z) (m : bool) :
  wf_board b = true -> count_empty b < fuel ->
  exists col s,
    (forall g, exists g', minimax fuel b depth m g = (Ok (col, Fin s), g')) /\
    (PLAYER_WIN_SCORE <= s <= AI_WIN_SCORE)%Z.
Proof.
  revert b depth m. induction fuel as [|fuel IH]; intros b depth m H Hfuel; [lia |].
  destruct ((depth =? 0)%Z || terminal b) eqn:Hbase.
  - pose proof (score_spec_bounds b AI_PIECE) as Hb.
    unfold PLAYER_WIN_SCORE, AI_WIN_SCORE in *.
    rewrite minimax_step, Hbase by done.
    destruct (terminal b);
      [destruct (wins b AI_PIECE); [| destruct (wins b PLAYER_PIECE)] |];
      eexists None, _; (split; [intros g; exists g; reflexivity |]);
      unfold PLAYER_WIN_SCORE, AI_WIN_SCORE; lia.
  - apply orb_false_iff in Hbase as [Hd Ht]. apply Z.eqb_neq in Hd.
    assert (Hterm : is_terminal_node b = Ok false)
      by (rewrite is_terminal_node_wf by done; by rewrite Ht).
    destruct m.
    + destruct (max_node_best fuel b depth H ltac:(lia) Hd Hterm)
        as (vl & c & s & Hvl & Hc & Hrun & Hchild & _).
      rewrite get_valid_locations_open in Hvl by done. injection Hvl as <-.
      destruct (child_score_board (minimax fuel) b depth AI_PIECE false c s
                  H Hc ltac:(done) Hchild)
        as (b' & col' & H' & Hcount & Hrun').
      destruct (IH b' (depth - 1)%Z false H' ltac:(lia)) as (col2 & s2 & Hrun2 & Hb).
      destruct (Hrun' draws_zero) as [g1 Hg1]. destruct (Hrun2 draws_zero) as [g2 Hg2].
      assert (s2 = s) as -> by congruence.
      by exists (Some c), s.
    + destruct (min_node_best fuel b depth H ltac:(lia) Hd Hterm)
        as (vl & c & s & Hvl & Hc & Hrun & Hchild & _).
      rewrite get_valid_locations_open in Hvl by done. injection Hvl as <-.
      destruct (child_score_board (minimax fuel) b depth PLAYER_PIECE true c s
                  H Hc ltac:(done) Hchild)
        as (b' & col' & H' & Hcount & Hrun').
      destruct (IH b' (depth - 1)%Z true H' ltac:(lia)) as (col2 & s2 & Hrun2 & Hb).
      destruct (Hrun' draws_zero) as [g1 Hg1]. destruct (Hrun2 draws_zero) as [g2 Hg2].
      assert (s2 = s) as -> by congruence.
      by exists (Some c), s.
Qed.

(** X15: whatever the board, the depth and the flag, the score [minimax]
    returns is an integer between -10000000000000 and 100000000000000: the
    infinite initial values never come out, and no backed-up score leaves
    the range of the two terminal scores. *)
Theorem minimax_score_bounds (fuel : nat) (b : board) (depth : Z) (m : bool) :
  wf_board b = true -> count_empty b < fuel ->
  exists col s,
    (forall g, exists g', minimax fuel b depth m g = (Ok (col, Fin s), g')) /\
    (-10000000000000 <= s <= 100000000000000)%Z.
Proof. apply minimax_score_range. Qed.

Lemma minimax_score_bounds_witness :
  wf_board board_midgame = true /\ count_empty board_midgame < 43 /\
  exists col s,
    (forall g, exists g', minimax 43 board_midgame 3 false g = (Ok (col, Fin s), g')) /\
    (-10000000000000 <= s <= 100000000000000)%Z.
Proof.
  split; [reflexivity |]. split; [vm_compute; lia |].
  apply minimax_score_bounds; [reflexivity | vm_compute; lia].
Defined.

(** X16: if some valid column completes four in a row for the computer,
    then at any depth other than 0 the maximizing search returns the win
    score 100000000000000, with a valid column. *)
Theorem minimax_takes_win (fuel : nat) (b b0 : board) (depth : Z) (c0 row0 : nat) :
  wf_board b = true -> count_empty b <= fuel ->
  depth <> 0%Z -> is_terminal_node b = Ok false ->
  is_valid_location b c0 = Ok true ->
  get_next_open_row b c0 = Ok (Some row0) ->
  drop_piece b row0 c0 AI_PIECE = Ok b0 ->
  winning_move b0 AI_PIECE = Ok true ->
  exists vl c, get_valid_locations b = Ok vl /\ c ∈ vl /\
    forall g, exists g',
      minimax (S fuel) b depth true g = (Ok (Some c, Fin 100000000000000), g').
Proof.
  intros H Hn Hd Hterm Hv Hrow Hdrop Hwin.
  apply is_valid_location_Ok in Hv as [Hc0 Htop]; [| done].
  symmetry in Htop. apply cell_eqb_true in Htop.
  assert (Hopen0 : c0 ∈ open_columns b) by (by apply elem_of_open_columns).
  destruct (simulate_move b c0 AI_PIECE H Hopen0 ltac:(done))
    as (row2 & b2 & Hrow2 & Hdrop2 & H0 & Hcount).
  assert (row2 = row0) as -> by congruence. simpl in Hdrop2.
  assert (b2 = b0) as -> by congruence.
  rewrite winning_move_wins in Hwin by done. injection Hwin as Hwin.
  assert (Hchild0 : child_score (minimax fuel) b depth AI_PIECE false c0 AI_WIN_SCORE).
  { exists row0, b0, None. split_and!; [done | done |]. intros g. exists g.
    destruct fuel as [|fuel]; [lia |].
    rewrite minimax_terminal_scores; [by rewrite Hwin | done |].
    unfold terminal. rewrite Hwin. by rewrite orb_true_r. }
  destruct (max_node_best fuel b depth H Hn Hd Hterm)
    as (vl & c & s & Hvl & Hc & Hrun & Hchild & Hbest).
  destruct (minimax_score_range (S fuel) b depth true H ltac:(lia))
    as (col2 & s2 & Hrun2 & Hb).
  destruct (Hrun draws_zero) as [g1 Hg1]. destruct (Hrun2 draws_zero) as [g2 Hg2].
  assert (s2 = s) as -> by congruence.
  assert (Hin0 : c0 ∈ vl).
  { rewrite get_valid_locations_open in Hvl by done. by injection Hvl as <-. }
  destruct (Hbest c0 AI_WIN_SCORE Hin0 Hchild0) as [Hle _].
  assert (s = AI_WIN_SCORE) as -> by lia.
  by exists vl, c.
Qed.

Lemma minimax_takes_win_witness :
  wf_board board_ai_three = true /\ count_empty board_ai_three <= 36 /\
  1%Z <> 0%Z /\ is_terminal_node board_ai_three = Ok false /\
  is_valid_location board_ai_three 3 = Ok true /\
  get_next_open_row board_ai_three 3 = Ok (Some 0) /\
  drop_piece board_ai_three 0 3 AI_PIECE = Ok board_ai_four /\
  winning_move board_ai_four AI_PIECE = Ok true /\
  exists vl c, get_valid_locations board_ai_three = Ok vl /\ c ∈ vl /\
    forall g, exists g',
      minimax 37 board_ai_three 1 true g = (Ok (Some c, Fin 100000000000000), g').
Proof.
  split; [reflexivity |]. split; [vm_compute; lia |]. split; [lia |].
  split; [reflexivity |]. split; [reflexivity |]. split; [reflexivity |].
  split; [reflexivity |]. split; [reflexivity |].
  apply (minimax_takes_win 36 board_ai_three board_ai_four 1 3 0);
    [reflexivity | vm_compute; lia | lia | reflexivity..].
Defined.

(** ** The game loop *)

Lemma lowest_drop_gravity (b b' : board) (row col : nat) (piece : cell) :
  gravity b = true -> bget b row col = EMPTY ->
  (forall r, r < row -> bget b r col <> EMPTY) ->
  (forall r c, bget b' r c
               = if bool_decide (r = row /\ c = col) then piece else bget b r c) ->
  gravity b' = true.
Proof.
  intros Hg He Hmin Hget. apply gravity_spec. intros c r Hc Hr. rewrite !Hget.
  rewrite gravity_spec in Hg.
  repeat case_bool_decide; intros Hr0.
  - lia.
  - destruct_and!; subst. by apply Hg.
  - destruct_and!; subst. exfalso. apply (Hmin r); [lia | done].
  - by apply Hg.
Qed.

(** A move in an open column of a board obeying gravity. *)
Lemma play_move (b : board) (c : nat) (piece : cell) :
  wf_board b = true -> gravity b = true -> c ∈ open_columns b ->
  exists row b' w,
    is_valid_location b c = Ok true /\
    get_next_open_row b c = Ok (Some row) /\
    drop_piece b row c piece = Ok b' /\
    winning_move b' piece = Ok w /\
    wf_board b' = true /\ gravity b' = true.
Proof.
  intros H Hg Hopen. pose proof Hopen as [Hc Htop]%elem_of_open_columns.
  destruct (bget_top_empty_open b c H Hc Htop) as (row & Hrow & Hlt & He & Hmin).
  destruct (drop_piece_wf b row c piece H Hlt Hc) as (b' & Hdrop & H' & Hget).
  destruct (winning_move_total b' piece H') as [w Hw].
  exists row, b', w. split_and!; try done.
  - rewrite is_valid_location_wf by done. f_equal. by apply cell_eqb_true.
  - by eapply lowest_drop_gravity.
Qed.




(** X18: the computer's turn on a terminal board (for instance a full
    board without a winner, which the loop of [play_game] does not treat
    as the end of the game) raises [TypeError]: [minimax] returns no
    column and [is_valid_location] indexes the top row with [None]. *)
Theorem ai_turn_terminal_raises (fuel : nat) (st : game) (g : rng) :
  wf_board (g_board st) = true -> 0 < fuel ->
  is_terminal_node (g_board st) = Ok true ->
  ai_turn fuel st g = (Err TypeError, g).
Proof.
  destruct st as [b over t]. simpl. intros H Hfuel Hterm.
  rewrite is_terminal_node_wf in Hterm by done. injection Hterm as Hterm.
  destruct fuel as [|fuel]; [lia |].
  unfold ai_turn, bind_m, lift. cbn [g_board].
  rewrite minimax_terminal_scores by done. cbn [fst].
  unfold is_valid_location_opt.
  destruct (wf_board_lookup b (ROW_COUNT - 1) H) as (top & Htop & _);
    [unfold ROW_COUNT; lia |].
  unfold idx. by rewrite Htop.
Qed.

Lemma ai_turn_terminal_raises_witness :
  wf_board (g_board (Game board_full_draw false 1)) = true /\ 0 < 43 /\
  is_terminal_node (g_board (Game board_full_draw false 1)) = Ok true /\
  ai_turn 43 (Game board_full_draw false 1) draws_zero = (Err TypeError, draws_zero).
Proof.
  split; [reflexivity |]. split; [lia |]. split; [reflexivity |].
  apply ai_turn_terminal_raises; [reflexivity | lia | reflexivity].
Defined.

(** X19: the human's turn on a board obeying gravity, for a column number
    that passed the numeric test.  Either the number exceeds 6 or the
    column is full, and then nothing changes (the turn stays with the
    human); or the player's piece is dropped on the lowest empty row of
    the column, [game_over] is set if that completes four in a row, and
    the turn passes.  Nothing raises. *)
Theorem human_turn_spec (col : nat) (st : game) :
  wf_board (g_board st) = true -> gravity (g_board st) = true ->
  ((COLUMN_COUNT <= col \/ column_full (g_board st) col) /\
   human_turn col st = Ok st) \/
  (exists row b' w,
     col < COLUMN_COUNT /\
     get_next_open_row (g_board st) col = Ok (Some row) /\
     drop_piece (g_board st) row col PLAYER_PIECE = Ok b' /\
     winning_move b' PLAYER_PIECE = Ok w /\
     wf_board b' = true /\ gravity b' = true /\
     human_turn col st = Ok (Game b' (w || game_over st) ((turn st + 1) mod 2))).
Proof.
  destruct st as [b over t]. simpl. intros H Hg. unfold human_turn.
  cbn [g_board game_over turn].
  destruct (Nat.ltb_spec (COLUMN_COUNT - 1) col) as [Hbig | Hc].
  { left. split; [left; unfold COLUMN_COUNT in *; lia | done]. }
  assert (Hc' : col < COLUMN_COUNT) by (unfold COLUMN_COUNT in *; lia).
  rewrite is_valid_location_wf by done.
  destruct (cell_eqb (bget b (ROW_COUNT - 1) col) EMPTY) eqn:Htop.
  - right. apply cell_eqb_true in Htop.
    destruct (play_move b col PLAYER_PIECE H Hg) as
      (row & b' & w & Hv & Hrow & Hdrop & Hw & H' & Hg');
      [by apply elem_of_open_columns |].
    exists row, b', w. split_and!; try done.
    unfold rbind at 1. rewrite Hrow. unfold rbind at 1. cbn [drop_piece_at].
    rewrite Hdrop. unfold rbind at 1. rewrite Hw. unfold rbind. by destruct w.
  - left. split; [| done]. right. apply cell_eqb_false in Htop.
    intros r Hr. apply (gravity_contiguous b col r (ROW_COUNT - 1)); try done;
      unfold ROW_COUNT in *; lia.
Qed.

Lemma human_turn_spec_witness :
  wf_board (g_board (Game board_midgame false 0)) = true /\
  gravity (g_board (Game board_midgame false 0)) = true /\
  (((COLUMN_COUNT <= 3 \/ column_full (g_board (Game board_midgame false 0)) 3) /\
    human_turn 3 (Game board_midgame false 0) = Ok (Game board_midgame false 0)) \/
   (exists row b' w,
      3 < COLUMN_COUNT /\
      get_next_open_row (g_board (Game board_midgame false 0)) 3 = Ok (Some row) /\
      drop_piece (g_board (Game board_midgame false 0)) row 3 PLAYER_PIECE = Ok b' /\
      winning_move b' PLAYER_PIECE = Ok w /\
      wf_board b' = true /\ gravity b' = true /\
      human_turn 3 (Game board_midgame false 0)
      = Ok (Game b' (w || game_over (Game board_midgame false 0))
              ((turn (Game board_midgame false 0) + 1) mod 2)))).
Proof.
  split; [reflexivity |]. split; [reflexivity |].
  apply human_turn_spec; reflexivity.
Defined.

(** ** The initial board *)

Lemma replicate_lookup_lt {A} (n i : nat) (x : A) :
  i < n -> replicate n x !! i = Some x.
Proof. intros Hi. by apply lookup_replicate_2. Qed.

(** X20: [create_board] returns a well-formed board obeying gravity whose
    42 cells are all empty; reading outside the grid raises [IndexError];
    all seven columns are valid, the board is not terminal, and the
    heuristic is 0 for both players. *)
Theorem create_board_fresh :
  wf_board create_board = true /\ gravity create_board = true /\
  (forall r c, cell_at create_board r c
               = if (r <? ROW_COUNT) && (c <? COLUMN_COUNT)
                 then Ok EMPTY else Err IndexError) /\
  get_valid_locations create_board = Ok [0; 1; 2; 3; 4; 5; 6] /\
  is_terminal_node create_board = Ok false /\
  score_position create_board AI_PIECE = Ok 0%Z /\
  score_position create_board PLAYER_PIECE = Ok 0%Z.
Proof.
  split_and!; try (vm_compute; reflexivity).
  intros r c. unfold cell_at, create_board, idx.
  destruct (Nat.ltb_spec r ROW_COUNT) as [Hr | Hr].
  - rewrite replicate_lookup_lt by done. cbn [rbind andb].
    destruct (Nat.ltb_spec c COLUMN_COUNT) as [Hc | Hc].
    + by rewrite replicate_lookup_lt.
    + by rewrite lookup_ge_None_2 by (rewrite length_replicate; lia).
  - by rewrite lookup_ge_None_2 by (rewrite length_replicate; lia).
Qed.

(** ** Printing *)

Lemma cell_char_inj (x y : cell) : Printing.cell_char x = Printing.cell_char y -> x = y.
Proof. by destruct x, y. Qed.

(** X21: the picture [print_board] prints determines the board: two
    well-formed boards that print the same text are equal. *)
Theorem print_board_inj (b1 b2 : board) :
  wf_board b1 = true -> wf_board b2 = true ->
  Printing.print_board b1 String.EmptyString = Printing.print_board b2 String.EmptyString ->
  b1 = b2.
Proof.
  intros H1 H2 Heq. grid b1 H1. grid b2 H2.
  cbv -[Printing.cell_char] in Heq.
  repeat match goal with
         | H : String.String _ _ = String.String _ _ |- _ => injection H as H
         end.
  repeat match goal with
         | H : Printing.cell_char _ = Printing.cell_char _ |- _ =>
             apply cell_char_inj in H; subst
         end.
  reflexivity.
Qed.

Lemma print_board_inj_witness :
  wf_board board_midgame = true /\ wf_board (mirror (mirror board_midgame)) = true /\
  Printing.print_board board_midgame String.EmptyString
  = Printing.print_board (mirror (mirror board_midgame)) String.EmptyString /\
  board_midgame = mirror (mirror board_midgame).
Proof.
  split; [reflexivity |]. split; [reflexivity |]. split; [reflexivity |].
  apply print_board_inj; reflexivity.
Defined.
